(** * CppReadline::Console — a shallow embedding of Console.cpp / Console.hpp

    The development follows the C++ source function by function.  The
    process-wide statics ([currentConsole_], [emptyHistory_], the static
    iterator of [commandIterator]), the live [Console] objects, the state of
    the line-editing engine, the standard output stream and the file system
    are gathered in one [World] record that every member function threads
    through a small result monad. *)

From Stdlib Require Import ZArith String Ascii List Lia Permutation DecimalString.
From stdpp Require Import base option list gmap strings.

Local Open Scope string_scope.
Local Open Scope list_scope.
Local Open Scope Z_scope.

(** ** Machine integers

    [int] and [unsigned] are taken to be 32 bits wide, with the modular
    conversions between them that C++20 mandates (and that every mainstream
    compiler has always implemented). *)

Module MachineInt.

Definition UINT_MODULUS : Z := 2 ^ 32.
Definition INT_MAX : Z := 2 ^ 31 - 1.
Definition INT_MIN : Z := - 2 ^ 31.

Definition in_int (z : Z) : Prop := INT_MIN <= z <= INT_MAX.
Definition in_unsigned (z : Z) : Prop := 0 <= z < UINT_MODULUS.

(** Conversion of any integer value to [unsigned]: reduction modulo 2^32. *)
Definition to_unsigned (z : Z) : Z := z mod UINT_MODULUS.

(** [static_cast<int>(u)] for an [unsigned] value [u]. *)
Definition static_cast_int (u : Z) : Z :=
  let u' := to_unsigned u in
  if u' <=? INT_MAX then u' else u' - UINT_MODULUS.

End MachineInt.
Import MachineInt.

(** ** [enum ReturnCode] (Console.hpp) *)

Module ReturnCode.
Definition Quit : Z := -1.
Definition Ok : Z := 0.
Definition Error : Z := 1.
End ReturnCode.

(** ** Strings

    [std::string] is [string]; the helpers below are the library operations
    the source relies on.  The text the engine hands to the console (the
    buffer of [readline], the partial word of a completion request) is the
    content of a C string and holds no [NUL]; where the console hands a
    [std::string] on as a C string, [c_str] gives what the callee sees. *)

Definition NUL : ascii := Ascii.zero.
Definition HASH : ascii := "#"%char.
Definition NEWLINE : ascii := "010"%char.

(** [std::isspace] in the classic "C" locale, which is what [operator>>]
    consults when it extracts a [std::string]. *)
Definition isspace (c : ascii) : bool :=
  let n := nat_of_ascii c in
  (n =? 32)%nat || ((9 <=? n)%nat && (n <=? 13)%nat).

Definition string_empty (s : string) : bool :=
  match s with EmptyString => true | String _ _ => false end.

(** [std::copy(istream_iterator<string>(iss), istream_iterator<string>(),
    back_inserter(inputs))]: each extraction skips leading white space and
    then accumulates characters up to the next white space or the end of the
    stream; the iteration ends when an extraction finds nothing.  [tok] is the
    token being accumulated. *)
Fixpoint extract_tokens (tok : string) (s : string) : list string :=
  match s with
  | EmptyString => if string_empty tok then [] else [tok]
  | String c s' =>
      if isspace c
      then (if string_empty tok then extract_tokens EmptyString s'
            else tok :: extract_tokens EmptyString s')
      else extract_tokens (tok +:+ String c EmptyString) s'
  end.

Definition tokenize (command : string) : list string :=
  extract_tokens EmptyString command.

(** [s.find(text) != std::string::npos]: [text] occurs in [s] at some
    position ([String.prefix] tests the occurrence at position 0). *)
Fixpoint string_contains (text s : string) : bool :=
  String.prefix text s ||
  match s with
  | EmptyString => false
  | String _ s' => string_contains text s'
  end.

(** [s[pos]] on a [std::string]: for [pos < size()] the character, for
    [pos == size()] a reference to the terminating [NUL] (C++11 and later);
    beyond that the behaviour is undefined ([None]). *)
Definition string_subscript (s : string) (pos : nat) : option ascii :=
  match String.get pos s with
  | Some c => Some c
  | None => if (pos =? String.length s)%nat then Some NUL else None
  end.

(** Lines delivered by successive [std::getline(input, command)] calls on a
    stream holding [s]: text up to each newline (the delimiter is dropped); a
    final unterminated line is delivered too, and the loop stops when nothing
    at all could be extracted. *)
Fixpoint getlines (s : string) : list string :=
  match s with
  | EmptyString => []
  | String c s' =>
      if Ascii.eqb c NEWLINE then EmptyString :: getlines s'
      else match getlines s' with
           | [] => [String c EmptyString]
           | l :: ls => String c l :: ls
           end
  end.

(** [s.c_str()] as [strlen] and [strcpy] see it: the characters before the
    first [NUL]. *)
Fixpoint c_str (s : string) : string :=
  match s with
  | EmptyString => EmptyString
  | String c s' => if Ascii.eqb c NUL then EmptyString else String c (c_str s')
  end.

(** [operator<<(int)]. *)
Definition show_int (z : Z) : string := NilZero.string_of_int (Z.to_int z).

(** ** The line-editing engine (GNU readline / history)

    The engine is an external collaborator, not part of this repository.  Its
    history is the ordered log of the lines entered so far.
    [history_get_history_state] hands out a snapshot of it,
    [history_set_history_state] installs a snapshot and [add_history] appends
    one entry to the installed history.  A snapshot is a value here: a console
    stores one only when it yields the engine and the next thing that happens
    to it is that it is installed again or replaced, so what the engine's
    snapshot structure shares with the live history is never observed. *)

Record HISTORY_STATE : Type := mkHistory { entries : list string }.

Definition engine_add_history (line : string) (h : HISTORY_STATE) : HISTORY_STATE :=
  mkHistory (entries h ++ [line]).

(** ** Data model *)

(** The address of a [Console] object (the value of [this]). *)
Definition addr : Type := nat.
Bind Scope nat_scope with addr.

(** A [RegisteredCommands::iterator]: the map it walks (given by the address
    of the console that owns the map), the keys the map held when the
    iterator was obtained from [begin], and the keys of the entries it has
    not visited yet (none at [end]).  Only the keys matter, the source reads
    nothing but [it->first].  An insertion may rehash the map, which
    invalidates its iterators; assigning to an existing key does not.  So an
    iterator is taken to be usable on a map exactly when it was obtained from
    that map and the map still holds the keys it held then. *)
Record iterator : Type := mkIterator {
  it_container : addr;
  it_keys : list string;
  it_rest : list string
}.

(** The engine's [compute_lcd_of_matches] (GNU readline, complete.c; not
    part of this repository), with case folding off as by default: the
    length of the common prefix of two strings, and the least such length
    over the neighbours in the list of matches, counted down from 100000. *)
Fixpoint common_prefix_length (s1 s2 : string) : N :=
  match s1, s2 with
  | String a s1', String b s2' =>
      if Ascii.eqb a b then N.succ (common_prefix_length s1' s2') else 0%N
  | _, _ => 0%N
  end.

Fixpoint lcd_length (ms : list string) : N :=
  match ms with
  | m1 :: ms' =>
      match ms' with
      | m2 :: _ => N.min (common_prefix_length m1 m2) (lcd_length ms')
      | [] => 100000%N
      end
  | [] => 100000%N
  end.

(** The array [rl_completion_matches] returns for the matches its generator
    produced: null for none; the match alone for one; for several, the text
    to substitute in slot 0 (their common prefix, or the partial text when
    they have none and the partial text is not empty) followed by the
    matches. *)
Definition match_list (text : string) (ms : list string) : option (list string) :=
  match ms with
  | [] => None
  | m :: ms' =>
      match ms' with
      | [] => Some [m]
      | _ :: _ =>
          let low := lcd_length ms in
          Some ((if (low =? 0)%N && negb (match text with
                                          | EmptyString => true
                                          | String _ _ => false
                                          end)
                 then text else String.substring 0 (N.to_nat low) m) :: ms)
      end
  end.

Section WithUserState.

(** Whatever state the embedding application's handlers close over. *)
Context {U : Type}.

(** [CommandFunction = std::function<unsigned(const std::vector<std::string>&)>].
    A [std::function] is either empty or holds a callable.  The two lambdas
    of the constructor capture [this]; every other callable is a handler of
    the embedding application, a function of the tokens and of the
    application state whose result is converted to [unsigned].  The handlers
    covered are those that compute on their tokens and on their own state
    and return: a handler that calls into a console or into the engine,
    writes to [std::cout] or throws is outside this model, and what is proved
    of application handlers is proved of the former kind. *)
Inductive CommandFunction : Type :=
| EmptyFunction
| HelpLambda (this : addr)
| RunLambda (this : addr)
| UserFunction (f : list string -> U -> U * Z).

(** [RegisteredCommands = std::unordered_map<std::string, CommandFunction>].
    The map is kept as the sequence of its entries in iteration order, which
    is what [getRegisteredCommands] and [commandIterator] walk.  The standard
    leaves that order unspecified; the statements below hold for whatever
    order the entries are in. *)
Definition RegisteredCommands : Type := list (string * CommandFunction).

(** [commands_.find(key)], with [None] for [end(commands_)]. *)
Fixpoint find (key : string) (m : RegisteredCommands) : option CommandFunction :=
  match m with
  | [] => None
  | (k, f) :: m' => if String.eqb key k then Some f else find key m'
  end.

(** [commands_[key] = f]: overwrite the entry of an existing key, insert a
    new entry otherwise. *)
Fixpoint assign (key : string) (f : CommandFunction) (m : RegisteredCommands)
  : RegisteredCommands :=
  match m with
  | [] => [(key, f)]
  | (k, g) :: m' =>
      if String.eqb key k then (k, f) :: m' else (k, g) :: assign key f m'
  end.

Record Console : Type := mkConsole {
  greeting_ : string;
  commands_ : RegisteredCommands;
  history_ : option HISTORY_STATE   (* [void *]; [None] is [nullptr] *)
}.

(** What a run leaves behind, in order: text written to [std::cout], calls
    of the call operator of the [CommandFunction] stored under [name] in the
    registry of [this] (an empty one throws), and evaluations of
    [operator[]] on a line of a script. *)
Inductive event : Type :=
| Cout (text : string)
| Invoke (this : addr) (name : string) (tokens : list string)
| Subscript (line : string) (pos : nat).

Record World : Type := mkWorld {
  consoles : gmap addr Console;          (* the live Console objects *)
  currentConsole_ : option addr;         (* static Console *; None = nullptr *)
  emptyHistory_ : HISTORY_STATE;         (* static void * *)
  rl_history : HISTORY_STATE;            (* the history held by the engine *)
  it : option iterator;                  (* static iterator of commandIterator;
                                            None before its first assignment *)
  files : string -> option string;       (* contents of the readable files *)
  user : U;                              (* state of the application's handlers *)
  trace : list event
}.

Definition set_consoles (cs : gmap addr Console) (w : World) : World :=
  mkWorld cs (currentConsole_ w) (emptyHistory_ w) (rl_history w) (it w)
          (files w) (user w) (trace w).
Definition set_currentConsole_ (c : option addr) (w : World) : World :=
  mkWorld (consoles w) c (emptyHistory_ w) (rl_history w) (it w)
          (files w) (user w) (trace w).
Definition set_rl_history (h : HISTORY_STATE) (w : World) : World :=
  mkWorld (consoles w) (currentConsole_ w) (emptyHistory_ w) h (it w)
          (files w) (user w) (trace w).
Definition set_it (i : option iterator) (w : World) : World :=
  mkWorld (consoles w) (currentConsole_ w) (emptyHistory_ w) (rl_history w) i
          (files w) (user w) (trace w).
Definition set_user (u : U) (w : World) : World :=
  mkWorld (consoles w) (currentConsole_ w) (emptyHistory_ w) (rl_history w) (it w)
          (files w) u (trace w).
Definition log (e : event) (w : World) : World :=
  mkWorld (consoles w) (currentConsole_ w) (emptyHistory_ w) (rl_history w) (it w)
          (files w) (user w) (trace w ++ [e]).

(** ** Results of member functions

    A call returns normally, leaves by the exception [std::bad_function_call]
    (the only exception the source can raise itself), has undefined
    behaviour (a null or dangling [Console] pointer is dereferenced, a
    string is indexed past its terminator, a singular iterator is used), or
    exceeds the nesting depth the model was given. *)
Inductive Res (A : Type) : Type :=
| Done (a : A) (w : World)
| Thrown (w : World)
| Undefined
| OutOfFuel.
Arguments Done {A} a w.
Arguments Thrown {A} w.
Arguments Undefined {A}.
Arguments OutOfFuel {A}.

Definition M (A : Type) : Type := World -> Res A.

Definition ret {A} (a : A) : M A := fun w => Done a w.
Definition bind {A B} (m : M A) (k : A -> M B) : M B :=
  fun w => match m w with
           | Done a w' => k a w'
           | Thrown w' => Thrown w'
           | Undefined => Undefined
           | OutOfFuel => OutOfFuel
           end.
Definition undefined {A} : M A := fun _ => Undefined.
Definition out_of_fuel {A} : M A := fun _ => OutOfFuel.
Definition throw_bad_function_call {A} : M A := fun w => Thrown w.
Definition gets {A} (f : World -> A) : M A := fun w => Done (f w) w.
Definition modify (f : World -> World) : M unit := fun w => Done tt (f w).

Notation "x <- c1 ;; c2" := (bind c1 (fun x => c2))
  (at level 100, c1 at next level, right associativity).
Notation "c1 ;;; c2" := (bind c1 (fun _ => c2))
  (at level 100, right associativity).

(** [std::cout << ...] *)
Definition cout (text : string) : M unit := modify (log (Cout text)).

(** Dereferencing a [Console *]. *)
Definition deref (p : addr) : M Console :=
  fun w => match consoles w !! p with
           | Some c => Done c w
           | None => Undefined
           end.

Definition store (p : addr) (c : Console) : M unit :=
  modify (fun w => set_consoles (<[p := c]> (consoles w)) w).

(** ** Console.cpp *)

(** [Console::Console(std::string greeting)], constructing at address
    [this].  (The constructor also points the engine's completion hook at
    [getCommandCompletions]; the hook never points anywhere else.) *)
Definition Console_ctor (this : addr) (greeting : string) : M unit :=
  let commands := [("quit", EmptyFunction); ("exit", EmptyFunction)] in
  let commands := assign "help" (HelpLambda this) commands in
  let commands := assign "run" (RunLambda this) commands in
  store this (mkConsole greeting commands None).

(** [Console::~Console()]: the snapshot is freed and the object is gone;
    [currentConsole_] is left as it is. *)
Definition Console_dtor (this : addr) : M unit :=
  _ <- deref this ;;
  modify (fun w => set_consoles (delete this (consoles w)) w).

Definition registerCommand (this : addr) (s : string) (f : CommandFunction) : M unit :=
  c <- deref this ;;
  store this (mkConsole (greeting_ c) (assign s f (commands_ c)) (history_ c)).

Definition getRegisteredCommands (this : addr) : M (list string) :=
  c <- deref this ;;
  ret (map fst (commands_ c)).

Definition saveState (this : addr) : M unit :=
  c <- deref this ;;
  h <- gets rl_history ;;                      (* history_get_history_state() *)
  store this (mkConsole (greeting_ c) (commands_ c) (Some h)).

Definition reserveConsole (this : addr) : M unit :=
  cur <- gets currentConsole_ ;;
  if bool_decide (cur = Some this) then ret tt
  else
    match cur with
    | Some other => saveState other
    | None => ret tt
    end ;;;
    c <- deref this ;;
    match history_ c with
    | None => e <- gets emptyHistory_ ;; modify (set_rl_history e)
    | Some h => modify (set_rl_history h)
    end ;;;
    modify (set_currentConsole_ (Some this)).

(** [std::cout << "[" << counter << "] " << command << '\n'] *)
Definition echo (counter : Z) (command : string) : string :=
  "[" +:+ show_int counter +:+ "] " +:+ command +:+ String NEWLINE "".

(** The body of the loop of [executeFile]; [exec] is [executeCommand] of the
    same console.  [counter] only feeds the echo of the line. *)
Fixpoint executeFile_loop (exec : string -> M Z) (lines : list string) (counter : Z)
  : M Z :=
  match lines with
  | [] => ret ReturnCode.Ok
  | command :: rest =>
      _ <- modify (log (Subscript command 0)) ;;
      match string_subscript command 0 with
      | None => undefined
      | Some c0 =>
          if Ascii.eqb c0 HASH then executeFile_loop exec rest counter
          else
            cout (echo counter command) ;;;
            result <- exec command ;;
            if negb (result =? 0) then ret result
            else
              cout (String NEWLINE "") ;;;
              executeFile_loop exec rest (counter + 1)
      end
  end.

Definition executeFile_with (exec : string -> M Z) (filename : string) : M Z :=
  fs <- gets files ;;
  match fs filename with
  | None =>
      cout ("Could not find the specified file to execute." +:+ String NEWLINE "") ;;;
      ret ReturnCode.Error
  | Some content => executeFile_loop exec (getlines content) 0
  end.

(** The bodies of the two lambdas of the constructor; both return [int]. *)
Definition help_lambda (this : addr) : M Z :=
  commands <- getRegisteredCommands this ;;
  cout ("Available commands are:" +:+ String NEWLINE "") ;;;
  (fix each (cs : list string) : M unit :=
     match cs with
     | [] => ret tt
     | command :: cs' =>
         cout (String "009" "" +:+ command +:+ String NEWLINE "") ;;; each cs'
     end) commands ;;;
  ret 0.

Definition run_lambda (executeFile : string -> M Z) (input : list string) : M Z :=
  match input with
  | input0 :: input1 :: _ => executeFile input1
  | input0 :: [] =>
      cout ("Usage: " +:+ input0 +:+ " script_filename" +:+ String NEWLINE "") ;;;
      ret 1
  | [] => undefined                               (* input[0] of an empty vector *)
  end.

(** [f(inputs)] for a [CommandFunction] [f] found under [name] in the
    registry of [this]: the call operator throws on an empty function and
    runs the callable otherwise; the result is an [unsigned].
    [exec t] is [executeCommand] of the console at [t]. *)
Definition call (exec : addr -> string -> M Z) (this : addr) (name : string)
    (f : CommandFunction) (inputs : list string) : M Z :=
  modify (log (Invoke this name inputs)) ;;;
  match f with
  | EmptyFunction => throw_bad_function_call
  | HelpLambda t =>
      r <- help_lambda t ;; ret (to_unsigned r)
  | RunLambda t =>
      r <- run_lambda (executeFile_with (exec t)) inputs ;; ret (to_unsigned r)
  | UserFunction h =>
      u <- gets user ;;
      let (u', r) := h inputs u in
      modify (set_user u') ;;;
      ret (to_unsigned r)
  end.

(** [Console::executeCommand].  [fuel] bounds how deeply calls of
    [executeCommand] may nest (a script run by [run] executes commands,
    which may run scripts, ...); a command that runs no script needs 1. *)
Fixpoint executeCommand (fuel : nat) (this : addr) (command : string) : M Z :=
  match fuel with
  | O => out_of_fuel
  | S fuel' =>
      let inputs := tokenize command in
      match inputs with
      | [] => ret ReturnCode.Ok
      | input0 :: _ =>
          if String.eqb input0 "quit" || String.eqb input0 "exit"
          then ret ReturnCode.Quit
          else
            c <- deref this ;;
            match find input0 (commands_ c) with
            | Some f =>
                r <- call (executeCommand fuel') this input0 f inputs ;;
                ret (static_cast_int r)
            | None =>
                cout ("Command '" +:+ input0 +:+ "' not found." +:+ String NEWLINE "") ;;;
                ret ReturnCode.Error
            end
      end
  end.

Definition executeFile (fuel : nat) (this : addr) (filename : string) : M Z :=
  executeFile_with (executeCommand fuel this) filename.

(** The engine's [add_history(line)]. *)
Definition add_history (line : string) : M unit :=
  modify (fun w => set_rl_history (engine_add_history line (rl_history w)) w).

(** [Console::readLine].  [input] is what the engine's [readline] delivers:
    a line, or [None] at the end of the input. *)
Definition readLine (fuel : nat) (this : addr) (input : option string) : M Z :=
  reserveConsole this ;;;
  match input with
  | None => cout (String NEWLINE "") ;;; ret ReturnCode.Quit
  | Some buffer =>
      (if negb (string_empty buffer) then add_history buffer else ret tt) ;;;
      executeCommand fuel this buffer
  end.

(** [char * completion = new char[n]; strcpy(completion, s.c_str())]:
    [strcpy] writes the characters of the C string and then its terminator;
    writing beyond the [n] bytes allocated is undefined behaviour.  The
    result is the text now in the buffer. *)
Definition new_strcpy (n : nat) (s : string) : M string :=
  if (String.length (c_str s) + 1 <=? n)%nat then ret (c_str s) else undefined.

(** The loop of [Console::commandIterator]: [i] is the static iterator on
    entry, [rest] the keys still to be visited. *)
Fixpoint commandIterator_loop (text : string) (i : iterator) (rest : list string)
  : M (option string) :=
  match rest with
  | [] => modify (set_it (Some (mkIterator (it_container i) (it_keys i) []))) ;;; ret None
  | command :: rest' =>
      if string_contains text command
      then
        modify (set_it (Some (mkIterator (it_container i) (it_keys i) rest'))) ;;;
        completion <- new_strcpy (String.length command) command ;;
        ret (Some completion)
      else commandIterator_loop text i rest'
  end.

(** [Console::commandIterator(text, state)]; [text] is the content of the C
    string passed in. *)
Definition commandIterator (text : string) (state : Z) : M (option string) :=
  cur <- gets currentConsole_ ;;
  match cur with
  | None => undefined
  | Some p =>
      c <- deref p ;;
      (if state =? 0
       then modify (set_it (Some (mkIterator p (map fst (commands_ c))
                                             (map fst (commands_ c)))))
       else ret tt) ;;;
      i <- gets it ;;
      match i with
      | None => undefined
      | Some i =>
          if bool_decide (it_container i = p)
             && bool_decide (it_keys i = map fst (commands_ c))
          then commandIterator_loop text i (it_rest i)
          else undefined
      end
  end.

(** The engine's [rl_completion_matches(text, generator)] (GNU readline,
    complete.c; not part of this repository): the generator is called with
    [state] 0, 1, 2, ... (the number of matches collected so far) until it
    returns null, and the matches are returned as [match_list] arranges
    them.  [fuel] bounds the number of calls. *)
Fixpoint collect_matches (fuel : nat) (generator : string -> Z -> M (option string))
    (text : string) (matches : list string) : M (list string) :=
  match fuel with
  | O => out_of_fuel
  | S fuel' =>
      r <- generator text (Z.of_nat (length matches)) ;;
      match r with
      | None => ret matches
      | Some m => collect_matches fuel' generator text (matches ++ [m])
      end
  end.

Definition rl_completion_matches (fuel : nat) (text : string)
    (generator : string -> Z -> M (option string)) : M (option (list string)) :=
  ms <- collect_matches fuel generator text [] ;;
  ret (match_list text ms).

(** [Console::getCommandCompletions(text, start, end)]. *)
Definition getCommandCompletions (fuel : nat) (text : string) (start : Z)
  : M (option (list string)) :=
  if start =? 0 then rl_completion_matches fuel text commandIterator
  else ret None.


(** ** Vocabulary of the statements *)

(** The console that holds the engine's live history. *)
Definition is_active (w : World) (p : addr) : Prop := currentConsole_ w = Some p.

(** The history the engine shows: what recall and navigation see. *)
Definition visible_history (w : World) : list string := entries (rl_history w).

(** What [reserveConsole] installs for a console: its snapshot, or the
    shared empty sentinel when it has none. *)
Definition snapshot_or_empty (w : World) (c : Console) : HISTORY_STATE :=
  match history_ c with
  | Some h => h
  | None => emptyHistory_ w
  end.

(** A script line that [executeFile] treats as a comment. *)
Definition is_comment (line : string) : bool :=
  match line with
  | String c _ => Ascii.eqb c HASH
  | EmptyString => false
  end.

(** [lines_ok exec lines n w n' w']: starting in [w] with sequence counter
    [n], the script lines [lines] are gone through in order, every comment
    is skipped and every other line is echoed, executed by [exec] and
    returns 0; this ends in [w'] with counter [n']. *)
Inductive lines_ok (exec : string -> M Z)
  : list string -> Z -> World -> Z -> World -> Prop :=
| lines_ok_nil n w : lines_ok exec [] n w n w
| lines_ok_comment line rest n w n' w' :
    is_comment line = true ->
    lines_ok exec rest n (log (Subscript line 0) w) n' w' ->
    lines_ok exec (line :: rest) n w n' w'
| lines_ok_zero line rest n w w1 n' w' :
    is_comment line = false ->
    exec line (log (Cout (echo n line)) (log (Subscript line 0) w)) = Done 0 w1 ->
    lines_ok exec rest (n + 1) (log (Cout (String NEWLINE "")) w1) n' w' ->
    lines_ok exec (line :: rest) n w n' w'.

(** The event is a call of the function stored under "quit" or "exit". *)
Definition invokes_quit_or_exit (e : event) : Prop :=
  match e with
  | Invoke _ name _ => name = "quit" \/ name = "exit"
  | _ => False
  end.

(** Only the entries "quit" and "exit" of a registry hold an empty function. *)
Definition registry_ok (m : RegisteredCommands) : Prop :=
  forall name, find name m = Some EmptyFunction -> name = "quit" \/ name = "exit".

Definition world_ok (w : World) : Prop :=
  forall p c, consoles w !! p = Some c -> registry_ok (commands_ c).

(** A string without white space. *)
Definition no_space (s : string) : Prop :=
  forall c, In c (list_ascii_of_string s) -> isspace c = false.

(** [quiet w w']: from [w] to [w'] no console was created, destroyed or
    changed, and the trace grew by events none of which is a call of the
    function stored under "quit" or "exit". *)
Definition quiet (w w' : World) : Prop :=
  consoles w' = consoles w
  /\ exists evs, trace w' = trace w ++ evs
                 /\ Forall (fun e => ~ invokes_quit_or_exit e) evs.

(** What a run started in [w] may end in: after a normal return the step
    was [quiet]; an exception moreover shows that some registry of [w]
    holds an empty function under another name than "quit" and "exit". *)
Definition guarded {A} (w : World) (r : Res A) : Prop :=
  match r with
  | Done _ w' => quiet w w'
  | Thrown w' => quiet w w' /\ ~ world_ok w
  | Undefined | OutOfFuel => True
  end.

(** ** Properties the specification words more strongly than the code has them *)

(** C2 as stated: for any two consoles and any entry [e] added while [B]
    is active, [e] is absent from the visible history once [A] is reserved
    and present again once [B] is reserved. *)
Definition history_isolation_as_stated : Prop :=
  forall (w w1 w2 w3 : World) (A B : addr) (a b : Console) (e : string),
    A <> B ->
    consoles w !! A = Some a ->
    consoles w !! B = Some b ->
    is_active w B ->
    add_history e w = Done tt w1 ->
    reserveConsole A w1 = Done tt w2 ->
    reserveConsole B w2 = Done tt w3 ->
    ~ In e (visible_history w2) /\ In e (visible_history w3).

(** C9 as stated: [executeFile] never reads character 0 of an empty line. *)
Definition comment_test_guarded_as_stated : Prop :=
  forall (fuel : nat) (this : addr) (filename : string) (w w' : World) (r : Z),
    trace w = [] ->
    executeFile fuel this filename w = Done r w' ->
    ~ In (Subscript "" 0) (trace w').

(** C6 as stated: a handler of the application never makes
    [executeCommand] return [Quit]. *)
Definition handlers_cannot_quit_as_stated : Prop :=
  forall (fuel : nat) (this : addr) (c : Console) (command name : string)
         (args : list string) (h : list string -> U -> U * Z) (w w' : World),
    consoles w !! this = Some c ->
    tokenize command = name :: args ->
    name <> "quit" -> name <> "exit" ->
    find name (commands_ c) = Some (UserFunction h) ->
    executeCommand fuel this command w <> Done ReturnCode.Quit w'.

(** ** Scenarios

    Concrete runs of the model, for the examples of the specification. *)

Definition script_text : string :=
  "# comment" +:+ String NEWLINE ("help" +:+ String NEWLINE
    ("quit" +:+ String NEWLINE ("help" +:+ String NEWLINE ""))).

Definition scenario_files (filename : string) : option string :=
  if String.eqb filename "script" then Some script_text
  else if String.eqb filename "blank" then Some (String NEWLINE "")
  else None.

(** The process before any console exists: the engine's history is empty
    and [emptyHistory_] is a snapshot of it. *)
Definition initial_world (u : U) : World :=
  mkWorld ∅ None (mkHistory []) (mkHistory []) None scenario_files u [].

(** The world a run ends in (the starting world when there is none). *)
Definition world_after {A} (m : M A) (w : World) : World :=
  match m w with
  | Done _ w' => w'
  | Thrown w' => w'
  | Undefined | OutOfFuel => w
  end.

(** The console object at address [p] (a blank one when there is none). *)
Definition console_at (w : World) (p : addr) : Console :=
  match consoles w !! p with
  | Some c => c
  | None => mkConsole "" [] None
  end.

(** Two consoles [A] at address 1 and [B] at address 2, none active. *)
Definition two_consoles (u : U) : World :=
  world_after (Console_ctor 1 "A> " ;;; Console_ctor 2 "B> ") (initial_world u).

(** ... with [B] the active owner. *)
Definition B_active (u : U) : World :=
  world_after (reserveConsole 2) (two_consoles u).

(** ... after the line "help" was read by [A] and [B] took over. *)
Definition A_has_help (u : U) : World :=
  world_after (readLine 2 1 (Some "help") ;;; reserveConsole 2) (two_consoles u).

(** A handler that answers with the number of its arguments. *)
Definition count_args (tokens : list string) (u : U) : U * Z :=
  (u, Z.of_nat (length tokens) - 1).

(** A handler that answers with the largest [unsigned]. *)
Definition all_ones (tokens : list string) (u : U) : U * Z :=
  (u, 4294967295).

(** Console [A] with [count_args] registered as "foo" and [all_ones] as
    "bar". *)
Definition with_handlers (u : U) : World :=
  world_after (registerCommand 1 "foo" (UserFunction count_args) ;;;
               registerCommand 1 "bar" (UserFunction all_ones))
              (two_consoles u).

(** ** Further vocabulary *)

(** A string of white space only (the empty string included). *)
Definition all_space (s : string) : Prop :=
  forall c, In c (list_ascii_of_string s) -> isspace c = true.

(** The characters of a string that are no white space. *)
Fixpoint strip_space (s : string) : string :=
  match s with
  | EmptyString => EmptyString
  | String c s' => if isspace c then strip_space s' else String c (strip_space s')
  end.

(** The strings of a list one after the other. *)
Definition glue (ts : list string) : string := fold_right String.append "" ts.

(** Words separated by single blanks. *)
Fixpoint unwords (ts : list string) : string :=
  match ts with
  | [] => ""
  | t :: ts' =>
      match ts' with
      | [] => t
      | _ :: _ => t +:+ String " " (unwords ts')
      end
  end.

(** Several events logged in order. *)
Definition log_all (evs : list event) (w : World) : World :=
  fold_left (fun w e => log e w) evs w.

(** The line the built-in "help" prints for one command. *)
Definition help_line (command : string) : event :=
  Cout (String "009" "" +:+ command +:+ String NEWLINE "").

(** The event is a call of a registered function. *)
Definition is_Invoke (e : event) : Prop :=
  match e with
  | Invoke _ _ _ => True
  | _ => False
  end.

(** [untouched w w']: from [w] to [w'] only the trace grew and the state of
    the application may have changed; the consoles, the active owner, the
    engine's history, the sentinel, the completion cursor and the files are
    as they were. *)
Definition untouched (w w' : World) : Prop :=
  consoles w' = consoles w
  /\ currentConsole_ w' = currentConsole_ w
  /\ emptyHistory_ w' = emptyHistory_ w
  /\ rl_history w' = rl_history w
  /\ it w' = it w
  /\ files w' = files w
  /\ exists evs, trace w' = trace w ++ evs.

(** A relation between the world before a run and the world it ends in,
    whether the run returns or throws. *)
Definition kept {A} (R : World -> World -> Prop) (w : World) (r : Res A) : Prop :=
  match r with
  | Done _ w' => R w w'
  | Thrown w' => R w w'
  | Undefined | OutOfFuel => True
  end.

(** The history that belongs to the console [c] at address [p]: the one in
    the engine while the console is the active owner, its snapshot (or the
    empty sentinel) while it is not. *)
Definition own_history (w : World) (p : addr) (c : Console) : HISTORY_STATE :=
  if bool_decide (currentConsole_ w = Some p) then rl_history w
  else snapshot_or_empty w c.

(** [currentConsole_] is null or points to a live console. *)
Definition owner_live (w : World) : Prop :=
  forall A, currentConsole_ w = Some A -> exists a, consoles w !! A = Some a.

(** No registry holds a key twice. *)
Definition keys_unique (w : World) : Prop :=
  forall p c, consoles w !! p = Some c -> List.NoDup (map fst (commands_ c)).

(** A script line that executes nothing: a comment, or white space only. *)
Definition idle_line (line : string) : Prop :=
  is_comment line = true \/ all_space line.

(** The world with one more readable file. *)
Definition add_file (name content : string) (w : World) : World :=
  mkWorld (consoles w) (currentConsole_ w) (emptyHistory_ w) (rl_history w) (it w)
          (fun f => if String.eqb f name then Some content else files w f)
          (user w) (trace w).

(** A script that calls the command "noop" on its second line. *)
Definition bad_text : string :=
  "help" +:+ String NEWLINE ("noop" +:+ String NEWLINE ("help" +:+ String NEWLINE "")).

(** Console [A] with an empty function registered as "noop", and the script
    "bad". *)
Definition with_noop (u : U) : World :=
  add_file "bad" bad_text
    (world_after (registerCommand 1 "noop" EmptyFunction) (two_consoles u)).

(** A script of comments and blank lines. *)
Definition idle_text : string :=
  "# one" +:+ String NEWLINE (String NEWLINE ("   " +:+ String NEWLINE "#")).

Definition with_idle_script (u : U) : World :=
  add_file "idle" idle_text (two_consoles u).

(** The four built-in commands are among the keys of every registry. *)
Definition builtins_listed (w : World) : Prop :=
  forall p c, consoles w !! p = Some c ->
    forall name, In name ["quit"; "exit"; "help"; "run"] -> In name (map fst (commands_ c)).

(** A string without a newline character. *)
Definition no_newline (s : string) : Prop :=
  forall c, In c (list_ascii_of_string s) -> c <> NEWLINE.

(** The text of a file whose lines are all ended by a newline. *)
Definition terminated_lines (ls : list string) : string :=
  glue (map (fun l => l +:+ String NEWLINE "") ls).

(** Console [A], active, with two names registered that hold a [NUL]. *)
Definition with_nul_names (u : U) : World :=
  world_after (registerCommand 1 (String "a" (String "b" (String NUL "x")))
                 (UserFunction count_args) ;;;
               registerCommand 1 (String "a" (String "c" (String NUL "y")))
                 (UserFunction count_args) ;;;
               reserveConsole 1)
              (two_consoles u).

(** [line_recorded w C c line w']: in [w'] the console at [C] is the active
    owner, its own history is the own history [c] had in [w] followed by
    [line] (by nothing when [line] is empty), and every other console of [w]
    has the own history it had in [w]. *)
Definition line_recorded (w : World) (C : addr) (c : Console) (line : string)
    (w' : World) : Prop :=
  is_active w' C
  /\ (exists c', consoles w' !! C = Some c'
        /\ entries (own_history w' C c') =
             entries (own_history w C c) ++ (if string_empty line then [] else [line]))
  /\ (forall X x, X <> C -> consoles w !! X = Some x ->
        exists x', consoles w' !! X = Some x' /\ own_history w' X x' = own_history w X x).

(** ** Facts about machine integers *)

Lemma to_unsigned_range z : in_unsigned (to_unsigned z).
Proof. unfold in_unsigned, to_unsigned, UINT_MODULUS. apply Z.mod_pos_bound. lia. Qed.

Lemma static_cast_int_range u : in_int (static_cast_int u).
Proof.
  unfold static_cast_int, in_int.
  pose proof (to_unsigned_range u) as H. unfold in_unsigned in H.
  unfold INT_MIN, INT_MAX, UINT_MODULUS in *.
  destruct (Z.leb_spec (to_unsigned u) (2 ^ 31 - 1)); lia.
Qed.

(** An [int] survives the trip through [unsigned] and back. *)
Lemma static_cast_int_to_unsigned r : in_int r -> static_cast_int (to_unsigned r) = r.
Proof.
  unfold in_int, INT_MIN, INT_MAX. intros Hr.
  unfold static_cast_int, to_unsigned, UINT_MODULUS, INT_MAX.
  rewrite Z.mod_mod by lia.
  destruct (Z_lt_le_dec r 0) as [Hneg | Hpos].
  - assert (Hm : r mod 2 ^ 32 = r + 2 ^ 32).
    { symmetry. apply Z.mod_unique with (q := -1); lia. }
    rewrite Hm. destruct (Z.leb_spec (r + 2 ^ 32) (2 ^ 31 - 1)); lia.
  - rewrite Z.mod_small by lia.
    destruct (Z.leb_spec r (2 ^ 31 - 1)); lia.
Qed.

Lemma static_cast_int_Quit u :
  static_cast_int u = ReturnCode.Quit <-> to_unsigned u = UINT_MODULUS - 1.
Proof.
  unfold static_cast_int, ReturnCode.Quit.
  pose proof (to_unsigned_range u) as H. unfold in_unsigned in H.
  unfold INT_MAX, UINT_MODULUS in *.
  destruct (Z.leb_spec (to_unsigned u) (2 ^ 31 - 1)); lia.
Qed.

(** ** The tokenizer *)

Lemma string_empty_true s : string_empty s = true <-> s = "".
Proof. destruct s; simpl; split; congruence. Qed.

Lemma string_empty_snoc s c : string_empty (s +:+ String c "") = false.
Proof. destruct s; reflexivity. Qed.

Lemma no_space_snoc s c : no_space s -> isspace c = false -> no_space (s +:+ String c "").
Proof.
  unfold no_space. induction s as [| a s IH]; simpl; intros Hs Hc x Hx.
  - destruct Hx as [<- | []]. exact Hc.
  - destruct Hx as [<- | Hx].
    + apply Hs. now left.
    + apply IH; auto.
Qed.

(** Every token is a non-empty run of characters without white space. *)
Lemma extract_tokens_fields s : forall tok t,
  no_space tok -> In t (extract_tokens tok s) -> t <> "" /\ no_space t.
Proof.
  induction s as [| c s IH]; simpl; intros tok t Htok Hin.
  - destruct (string_empty tok) eqn:E; simpl in Hin; [contradiction |].
    destruct Hin as [<- | []]. split; [| exact Htok].
    intros ->. discriminate.
  - destruct (isspace c) eqn:Ec.
    + destruct (string_empty tok) eqn:E.
      * apply (IH "" t); [intros x [] | exact Hin].
      * destruct Hin as [<- | Hin].
        -- split; [intros ->; discriminate | exact Htok].
        -- apply (IH "" t); [intros x [] | exact Hin].
    + apply (IH (tok +:+ String c "") t); [now apply no_space_snoc | exact Hin].
Qed.

Lemma tokenize_fields command t :
  In t (tokenize command) -> t <> "" /\ no_space t.
Proof. apply extract_tokens_fields. intros x []. Qed.

(** ** The registry *)

Lemma find_assign_eq key f m : find key (assign key f m) = Some f.
Proof.
  induction m as [| [k g] m IH]; simpl.
  - now rewrite String.eqb_refl.
  - destruct (String.eqb key k) eqn:E; simpl; rewrite E; auto.
Qed.

Lemma find_assign_ne key key' f m :
  key' <> key -> find key' (assign key f m) = find key' m.
Proof.
  intros Hne. induction m as [| [k g] m IH]; simpl.
  - apply String.eqb_neq in Hne. now rewrite Hne.
  - destruct (String.eqb key k) eqn:E; simpl.
    + apply String.eqb_eq in E. subst k.
      apply String.eqb_neq in Hne. now rewrite Hne.
    + now rewrite IH.
Qed.

Lemma find_Some_In key f m : find key m = Some f -> In key (map fst m).
Proof.
  induction m as [| [k g] m IH]; simpl; [discriminate |].
  destruct (String.eqb key k) eqn:E.
  - apply String.eqb_eq in E. auto.
  - auto.
Qed.

Lemma In_assign key key' f m :
  In key' (map fst m) -> In key' (map fst (assign key f m)).
Proof.
  induction m as [| [k g] m IH]; simpl; [contradiction |].
  destruct (String.eqb key k); simpl; intuition.
Qed.

(** ** The history multiplexer *)

Lemma reserveConsole_active (w : World) (C : addr) :
  currentConsole_ w = Some C -> reserveConsole C w = Done tt w.
Proof.
  intros Hcur. unfold reserveConsole, bind, gets, ret.
  rewrite Hcur. rewrite bool_decide_eq_true_2; reflexivity.
Qed.

Lemma reserveConsole_switch (w : World) (C A : addr) (c a : Console) :
  consoles w !! C = Some c ->
  currentConsole_ w = Some A -> A <> C -> consoles w !! A = Some a ->
  reserveConsole C w =
    Done tt
      (set_currentConsole_ (Some C)
         (set_rl_history (snapshot_or_empty w c)
            (set_consoles
               (<[A := mkConsole (greeting_ a) (commands_ a) (Some (rl_history w))]>
                  (consoles w)) w))).
Proof.
  intros HC Hcur Hne HA.
  unfold reserveConsole, saveState, store, deref, bind, gets, modify, ret.
  rewrite Hcur. rewrite bool_decide_eq_false_2 by congruence.
  rewrite HA. cbn [consoles set_consoles].
  rewrite lookup_insert_ne by exact Hne. rewrite HC.
  unfold snapshot_or_empty. destruct (history_ c); reflexivity.
Qed.

Lemma reserveConsole_idle (w : World) (C : addr) (c : Console) :
  consoles w !! C = Some c ->
  currentConsole_ w = None ->
  reserveConsole C w =
    Done tt (set_currentConsole_ (Some C) (set_rl_history (snapshot_or_empty w c) w)).
Proof.
  intros HC Hcur.
  unfold reserveConsole, deref, bind, gets, modify, ret.
  rewrite Hcur. rewrite bool_decide_eq_false_2 by congruence.
  rewrite HC. unfold snapshot_or_empty. destruct (history_ c); reflexivity.
Qed.

(** A dangling [currentConsole_] makes the hand-over undefined. *)
Lemma reserveConsole_dangling (w : World) (C A : addr) :
  currentConsole_ w = Some A -> A <> C -> consoles w !! A = None ->
  reserveConsole C w = Undefined.
Proof.
  intros Hcur Hne HA.
  unfold reserveConsole, saveState, deref, bind, gets.
  rewrite Hcur. rewrite bool_decide_eq_false_2 by congruence.
  rewrite HA. reflexivity.
Qed.

Lemma reserveConsole_owner (w w' : World) (C : addr) (c : Console) :
  consoles w !! C = Some c ->
  reserveConsole C w = Done tt w' -> currentConsole_ w' = Some C.
Proof.
  intros HC Hres.
  destruct (currentConsole_ w) as [A |] eqn:Hcur.
  - destruct (decide (A = C)) as [-> | Hne].
    + rewrite reserveConsole_active in Hres by exact Hcur.
      injection Hres as <-. exact Hcur.
    + destruct (consoles w !! A) as [a |] eqn:HA.
      * rewrite (reserveConsole_switch w C A c a HC Hcur Hne HA) in Hres.
        injection Hres as <-. reflexivity.
      * rewrite (reserveConsole_dangling w C A Hcur Hne HA) in Hres. discriminate.
  - rewrite (reserveConsole_idle w C c HC Hcur) in Hres.
    injection Hres as <-. reflexivity.
Qed.

(** C1.  [reserveConsole] on a live console [C]: when [C] is already the
    active owner nothing changes; otherwise, when another console [A] is
    active, the history held by the engine first becomes [A]'s snapshot
    (replacing any earlier one), then [C]'s snapshot, or the shared empty
    sentinel when [C] has none, is installed in the engine and [C] becomes
    the active owner; when no console is active only the last two steps
    happen.  Whenever [reserveConsole] returns, [C] is the one and only
    active owner. *)
Theorem reserveConsole_spec (w : World) (C : addr) (c : Console) :
  consoles w !! C = Some c ->
  (currentConsole_ w = Some C -> reserveConsole C w = Done tt w)
  /\ (forall A a,
        currentConsole_ w = Some A -> A <> C -> consoles w !! A = Some a ->
        reserveConsole C w =
          Done tt
            (set_currentConsole_ (Some C)
               (set_rl_history (snapshot_or_empty w c)
                  (set_consoles
                     (<[A := mkConsole (greeting_ a) (commands_ a) (Some (rl_history w))]>
                        (consoles w)) w))))
  /\ (currentConsole_ w = None ->
      reserveConsole C w =
        Done tt (set_currentConsole_ (Some C) (set_rl_history (snapshot_or_empty w c) w)))
  /\ (forall w', reserveConsole C w = Done tt w' ->
      forall X, is_active w' X <-> X = C).
Proof.
  intros HC. split; [| split; [| split]].
  - apply reserveConsole_active.
  - intros A a Hcur Hne HA. now apply reserveConsole_switch.
  - now apply reserveConsole_idle.
  - intros w' Hres X. unfold is_active.
    rewrite (reserveConsole_owner w w' C c HC Hres).
    split; congruence.
Qed.

(** C2 (amended).  History isolation round trip: let [A] and [B] be two
    different live consoles, [B] the active owner, and let the entry [e] be
    added to the history.  Reserving [A] then shows exactly [A]'s own
    history (its snapshot, or the empty sentinel when it has none), so [e]
    is absent from the visible history unless [A]'s own history already
    holds it; reserving [B] again shows [B]'s earlier history followed by
    [e]: nothing of the outgoing owner is lost. *)
Theorem history_isolation_round_trip (w : World) (A B : addr) (a b : Console)
    (e : string) :
  A <> B ->
  consoles w !! A = Some a ->
  consoles w !! B = Some b ->
  is_active w B ->
  exists w1 w2 w3,
    add_history e w = Done tt w1
    /\ reserveConsole A w1 = Done tt w2
    /\ reserveConsole B w2 = Done tt w3
    /\ visible_history w2 = entries (snapshot_or_empty w a)
    /\ (In e (visible_history w2) <-> In e (entries (snapshot_or_empty w a)))
    /\ visible_history w3 = visible_history w ++ [e]
    /\ In e (visible_history w3).
Proof.
  intros Hne HA HB Hact. unfold is_active in Hact.
  set (w1 := set_rl_history (engine_add_history e (rl_history w)) w).
  assert (HA1 : consoles w1 !! A = Some a) by exact HA.
  assert (HB1 : consoles w1 !! B = Some b) by exact HB.
  pose proof (reserveConsole_switch w1 A B a b HA1 Hact (not_eq_sym Hne) HB1) as Hswitch.
  set (b' := mkConsole (greeting_ b) (commands_ b) (Some (rl_history w1))) in Hswitch.
  set (w2 := set_currentConsole_ (Some A)
               (set_rl_history (snapshot_or_empty w1 a)
                  (set_consoles (<[B := b']> (consoles w1)) w1))) in Hswitch.
  assert (HB2 : consoles w2 !! B = Some b').
  { cbn. apply lookup_insert_eq. }
  assert (HA2 : consoles w2 !! A = Some a).
  { cbn. rewrite lookup_insert_ne by congruence. exact HA. }
  pose proof (reserveConsole_switch w2 B A b' a HB2 eq_refl Hne HA2) as Hback.
  eexists w1, w2, _. split; [reflexivity |].
  split; [exact Hswitch |]. split; [exact Hback |].
  assert (Hvis2 : visible_history w2 = entries (snapshot_or_empty w a)) by reflexivity.
  split; [exact Hvis2 |]. split; [now rewrite Hvis2 |].
  assert (Hvis3 : visible_history
            (set_currentConsole_ (Some B)
               (set_rl_history (snapshot_or_empty w2 b')
                  (set_consoles
                     (<[A := mkConsole (greeting_ a) (commands_ a) (Some (rl_history w2))]>
                        (consoles w2)) w2)))
          = visible_history w ++ [e]) by reflexivity.
  split; [exact Hvis3 |].
  rewrite Hvis3. apply in_or_app. right. now left.
Qed.

(** ** The dispatcher *)

Lemma quit_exit_test (tok : string) :
  String.eqb tok "quit" || String.eqb tok "exit" = true <-> tok = "quit" \/ tok = "exit".
Proof.
  rewrite orb_true_iff. now rewrite !String.eqb_eq.
Qed.

Lemma quit_exit_test_false (tok : string) :
  tok <> "quit" -> tok <> "exit" ->
  String.eqb tok "quit" || String.eqb tok "exit" = false.
Proof.
  intros H1 H2. apply String.eqb_neq in H1, H2. now rewrite H1, H2.
Qed.

(** C3.  A line whose first token is "quit" or "exit" makes
    [executeCommand] return [Quit] and leaves the world as it was: nothing
    is looked up, called or printed.  This is so whatever the registry
    holds, in particular after a handler was registered under that name. *)
Theorem executeCommand_quit_exit (fuel : nat) (w : World) (this : addr)
    (command tok : string) (rest : list string) :
  tokenize command = tok :: rest ->
  tok = "quit" \/ tok = "exit" ->
  executeCommand (S fuel) this command w = Done ReturnCode.Quit w
  /\ (forall f w', registerCommand this tok f w = Done tt w' ->
      executeCommand (S fuel) this command w' = Done ReturnCode.Quit w').
Proof.
  intros Htok Hq. apply quit_exit_test in Hq.
  split; [| intros f w' _]; simpl; rewrite Htok, Hq; reflexivity.
Qed.

(** C8.  A line without tokens (the empty line among them) returns [Ok] and
    leaves the world as it was.  A line whose first token is neither
    "quit" nor "exit" and is not a key of the registry returns [Error],
    which is 1, after printing a diagnostic that quotes the token; so does
    "bogus" when nothing is registered under it. *)
Theorem executeCommand_empty_or_unknown (fuel : nat) (w : World) (this : addr)
    (c : Console) :
  consoles w !! this = Some c ->
  (forall command, tokenize command = [] ->
     executeCommand (S fuel) this command w = Done ReturnCode.Ok w)
  /\ executeCommand (S fuel) this "" w = Done ReturnCode.Ok w
  /\ (forall command tok rest,
        tokenize command = tok :: rest ->
        tok <> "quit" -> tok <> "exit" ->
        find tok (commands_ c) = None ->
        executeCommand (S fuel) this command w =
          Done ReturnCode.Error
               (log (Cout ("Command '" +:+ tok +:+ "' not found." +:+ String NEWLINE "")) w))
  /\ (find "bogus" (commands_ c) = None ->
      executeCommand (S fuel) this "bogus" w =
        Done ReturnCode.Error
             (log (Cout ("Command 'bogus' not found." +:+ String NEWLINE "")) w))
  /\ 1 <= ReturnCode.Error.
Proof.
  intros Hc.
  assert (Hunknown : forall command tok rest,
        tokenize command = tok :: rest ->
        tok <> "quit" -> tok <> "exit" ->
        find tok (commands_ c) = None ->
        executeCommand (S fuel) this command w =
          Done ReturnCode.Error
               (log (Cout ("Command '" +:+ tok +:+ "' not found." +:+ String NEWLINE "")) w)).
  { intros command tok rest Htok Hq He Hfind. simpl.
    rewrite Htok, (quit_exit_test_false tok Hq He).
    unfold bind, deref. rewrite Hc, Hfind. reflexivity. }
  split; [| split; [| split; [| split]]].
  - intros command Htok. simpl. rewrite Htok. reflexivity.
  - reflexivity.
  - exact Hunknown.
  - intros Hfind. apply (Hunknown "bogus" "bogus" []); [reflexivity | | | exact Hfind];
      discriminate.
  - unfold ReturnCode.Error. lia.
Qed.

Lemma executeCommand_found (fuel : nat) (w : World) (this : addr)
    (c : Console) (command name : string) (args : list string)
    (f : CommandFunction) :
  consoles w !! this = Some c ->
  tokenize command = name :: args ->
  name <> "quit" -> name <> "exit" ->
  find name (commands_ c) = Some f ->
  executeCommand (S fuel) this command w =
    (r <- call (executeCommand fuel) this name f (name :: args) ;;
     ret (static_cast_int r)) w.
Proof.
  intros Hc Htok Hq He Hfind.
  simpl. rewrite Htok, (quit_exit_test_false name Hq He).
  unfold bind at 1. unfold deref. rewrite Hc, Hfind. reflexivity.
Qed.

Lemma executeCommand_user (fuel : nat) (w : World) (this : addr)
    (c : Console) (command name : string) (args : list string)
    (h : list string -> U -> U * Z) :
  consoles w !! this = Some c ->
  tokenize command = name :: args ->
  name <> "quit" -> name <> "exit" ->
  find name (commands_ c) = Some (UserFunction h) ->
  executeCommand (S fuel) this command w =
    Done (static_cast_int (to_unsigned (snd (h (name :: args) (user w)))))
         (set_user (fst (h (name :: args) (user w)))
            (log (Invoke this name (name :: args)) w)).
Proof.
  intros Hc Htok Hq He Hfind.
  rewrite (executeCommand_found fuel w this c command name args _ Hc Htok Hq He Hfind).
  unfold call, bind, modify, gets, ret. cbn [user log].
  destruct (h (name :: args) (user w)) as [u' r]. reflexivity.
Qed.

(** C5.  When the first token [name] of a line is a key of the registry
    (and is neither "quit" nor "exit"), [executeCommand] calls the function
    stored under [name] once, on the complete token list, and returns its
    [unsigned] result cast to [int].  For a handler [h] of the application
    this means: one [Invoke] event carrying all the tokens, the application
    state advanced by one run of [h], and the cast result of that run. *)
Theorem executeCommand_dispatch (fuel : nat) (w : World) (this : addr)
    (c : Console) (command name : string) (args : list string)
    (f : CommandFunction) :
  consoles w !! this = Some c ->
  tokenize command = name :: args ->
  name <> "quit" -> name <> "exit" ->
  find name (commands_ c) = Some f ->
  executeCommand (S fuel) this command w =
    (r <- call (executeCommand fuel) this name f (name :: args) ;;
     ret (static_cast_int r)) w
  /\ (forall h, f = UserFunction h ->
      executeCommand (S fuel) this command w =
        Done (static_cast_int (to_unsigned (snd (h (name :: args) (user w)))))
             (set_user (fst (h (name :: args) (user w)))
                (log (Invoke this name (name :: args)) w))).
Proof.
  intros Hc Htok Hq He Hfind. split.
  - now apply (executeCommand_found fuel w this c).
  - intros h ->. now apply (executeCommand_user fuel w this c).
Qed.

(** Which results of an application handler come out as [Quit]. *)
Lemma user_handler_Quit_iff (fuel : nat) (w : World) (this : addr)
    (c : Console) (command name : string) (args : list string)
    (h : list string -> U -> U * Z) :
  consoles w !! this = Some c ->
  tokenize command = name :: args ->
  name <> "quit" -> name <> "exit" ->
  find name (commands_ c) = Some (UserFunction h) ->
  (exists w', executeCommand (S fuel) this command w = Done ReturnCode.Quit w')
  <-> to_unsigned (snd (h (name :: args) (user w))) = UINT_MODULUS - 1.
Proof.
  intros Hc Htok Hq He Hfind.
  rewrite (executeCommand_user fuel w this c command name args h Hc Htok Hq He Hfind).
  split.
  - intros [w' Hw']. injection Hw' as Hr _.
    apply static_cast_int_Quit in Hr.
    unfold to_unsigned in *. rewrite Z.mod_mod in Hr; [exact Hr |].
    unfold UINT_MODULUS. lia.
  - intros Hr. eexists. f_equal.
    apply static_cast_int_Quit.
    unfold to_unsigned in *. rewrite Z.mod_mod; [exact Hr |].
    unfold UINT_MODULUS. lia.
Qed.

(** ** The script runner *)

Lemma string_subscript_0 (line : string) :
  string_subscript line 0 =
    Some (match line with String c _ => c | EmptyString => NUL end).
Proof. destruct line; reflexivity. Qed.

Lemma executeFile_loop_comment (exec : string -> M Z) line rest n w :
  is_comment line = true ->
  executeFile_loop exec (line :: rest) n w =
    executeFile_loop exec rest n (log (Subscript line 0) w).
Proof.
  intros Hc. cbn [executeFile_loop]. unfold bind at 1, modify.
  rewrite string_subscript_0.
  destruct line as [| c s]; [discriminate |].
  cbn [is_comment] in Hc. rewrite Hc. reflexivity.
Qed.

Lemma executeFile_loop_exec (exec : string -> M Z) line rest n w :
  is_comment line = false ->
  executeFile_loop exec (line :: rest) n w =
    (result <- exec line ;;
     if negb (result =? 0) then ret result
     else cout (String NEWLINE "") ;;; executeFile_loop exec rest (n + 1))
      (log (Cout (echo n line)) (log (Subscript line 0) w)).
Proof.
  intros Hc. cbn [executeFile_loop]. unfold bind at 1, modify.
  rewrite string_subscript_0.
  destruct line as [| c s].
  - reflexivity.
  - cbn [is_comment] in Hc. rewrite Hc. reflexivity.
Qed.

Lemma executeFile_loop_stop (exec : string -> M Z) line rest n w r w2 :
  is_comment line = false ->
  exec line (log (Cout (echo n line)) (log (Subscript line 0) w)) = Done r w2 ->
  r <> 0 ->
  executeFile_loop exec (line :: rest) n w = Done r w2.
Proof.
  intros Hc Hexec Hr. rewrite executeFile_loop_exec by exact Hc.
  unfold bind at 1. rewrite Hexec.
  apply Z.eqb_neq in Hr. rewrite Hr. reflexivity.
Qed.

Lemma executeFile_loop_continue (exec : string -> M Z) line rest n w w1 :
  is_comment line = false ->
  exec line (log (Cout (echo n line)) (log (Subscript line 0) w)) = Done 0 w1 ->
  executeFile_loop exec (line :: rest) n w =
    executeFile_loop exec rest (n + 1) (log (Cout (String NEWLINE "")) w1).
Proof.
  intros Hc Hexec. rewrite executeFile_loop_exec by exact Hc.
  unfold bind at 1. rewrite Hexec. reflexivity.
Qed.

(** Lines that all return 0 are gone through from first to last. *)
Lemma executeFile_loop_prefix (exec : string -> M Z) pre post n w n' w' :
  lines_ok exec pre n w n' w' ->
  executeFile_loop exec (pre ++ post) n w = executeFile_loop exec post n' w'.
Proof.
  induction 1 as [n w | line rest n w n' w' Hc _ IH
                  | line rest n w w1 n' w' Hc Hexec _ IH].
  - reflexivity.
  - rewrite <- app_comm_cons, executeFile_loop_comment by exact Hc. exact IH.
  - rewrite <- app_comm_cons, (executeFile_loop_continue exec line _ n w w1 Hc Hexec).
    exact IH.
Qed.

Lemma executeFile_with_open (exec : string -> M Z) filename content w :
  files w filename = Some content ->
  executeFile_with exec filename w = executeFile_loop exec (getlines content) 0 w.
Proof.
  intros Hf. unfold executeFile_with, bind, gets. rewrite Hf. reflexivity.
Qed.

(** C4.  [executeFile] on a path that cannot be opened prints a diagnostic
    and returns [Error].  On a readable file it goes through the lines in
    order, executing those that are no comments with [executeCommand]: at
    the first line whose result [r] is not 0 it returns [r] in the world
    that line left, whatever lines follow; when every line returned 0 it
    returns [Ok] at the end of the file. *)
Theorem executeFile_spec (fuel : nat) (this : addr) (filename : string) (w : World) :
  (files w filename = None ->
   executeFile fuel this filename w =
     Done ReturnCode.Error
          (log (Cout ("Could not find the specified file to execute."
                      +:+ String NEWLINE "")) w))
  /\ (forall content pre line post n w1 r w2,
        files w filename = Some content ->
        getlines content = pre ++ line :: post ->
        lines_ok (executeCommand fuel this) pre 0 w n w1 ->
        is_comment line = false ->
        executeCommand fuel this line
          (log (Cout (echo n line)) (log (Subscript line 0) w1)) = Done r w2 ->
        r <> 0 ->
        executeFile fuel this filename w = Done r w2)
  /\ (forall content n w',
        files w filename = Some content ->
        lines_ok (executeCommand fuel this) (getlines content) 0 w n w' ->
        executeFile fuel this filename w = Done ReturnCode.Ok w').
Proof.
  split; [| split].
  - intros Hf. unfold executeFile, executeFile_with, bind, gets, cout, modify, ret.
    rewrite Hf. reflexivity.
  - intros content pre line post n w1 r w2 Hf Hlines Hok Hc Hexec Hr.
    unfold executeFile. rewrite (executeFile_with_open _ _ content) by exact Hf.
    rewrite Hlines, (executeFile_loop_prefix _ pre (line :: post) 0 w n w1 Hok).
    now apply executeFile_loop_stop.
  - intros content n w' Hf Hok.
    unfold executeFile. rewrite (executeFile_with_open _ _ content) by exact Hf.
    rewrite <- (app_nil_r (getlines content)).
    rewrite (executeFile_loop_prefix _ _ [] 0 w n w' Hok). reflexivity.
Qed.

(** C9 (amended).  A script line whose first character is '#' is skipped:
    it is neither echoed nor executed and the next line is taken up.  The
    test reads character 0 of every line without looking at its length
    first, the empty line included; there the read delivers the
    terminating NUL of the string, which is no '#', so the empty line is
    echoed and executed like any other (and returns [Ok]). *)
Theorem comment_test_unguarded (fuel : nat) (this : addr) (s : string)
    (rest : list string) (n : Z) (w : World) :
  executeFile_loop (executeCommand (S fuel) this) (String HASH s :: rest) n w =
    executeFile_loop (executeCommand (S fuel) this) rest n
      (log (Subscript (String HASH s) 0) w)
  /\ string_subscript "" 0 = Some NUL
  /\ executeFile_loop (executeCommand (S fuel) this) ("" :: rest) n w =
       executeFile_loop (executeCommand (S fuel) this) rest (n + 1)
         (log (Cout (String NEWLINE ""))
            (log (Cout (echo n "")) (log (Subscript "" 0) w))).
Proof.
  split; [| split].
  - apply executeFile_loop_comment. reflexivity.
  - reflexivity.
  - apply executeFile_loop_continue; reflexivity.
Qed.

(** ** The completion adapter *)

Lemma prefix_iff (text s : string) :
  String.prefix text s = true <-> exists post, s = text +:+ post.
Proof.
  revert s. induction text as [| a text IH]; intros s.
  - split; [intros _; now exists s | intros _; destruct s; reflexivity].
  - destruct s as [| b s]; simpl.
    + split; [discriminate | intros [post Hp]; discriminate].
    + destruct (ascii_dec a b) as [-> | Hne].
      * rewrite IH. split; intros [post Hp]; exists post.
        -- now rewrite Hp.
        -- cbn [String.append] in Hp. now injection Hp.
      * split; [discriminate |].
        intros [post Hp]. cbn [String.append] in Hp. injection Hp as Hab _.
        congruence.
Qed.

(** [string_contains] is the substring test, not the prefix test. *)
Lemma string_contains_iff (text s : string) :
  string_contains text s = true <-> exists pre post, s = pre +:+ text +:+ post.
Proof.
  induction s as [| b s IH].
  - cbn [string_contains]. rewrite orb_false_r, prefix_iff. split.
    + intros [post Hp]. now exists "", post.
    + intros (pre & post & Hp). destruct pre; [now exists post | discriminate].
  - cbn [string_contains]. rewrite orb_true_iff, IH, prefix_iff. split.
    + intros [[post Hp] | (pre & post & Hp)].
      * now exists "", post.
      * exists (String b pre), post. simpl. now rewrite Hp.
    + intros (pre & post & Hp). destruct pre as [| a pre].
      * left. now exists post.
      * right. exists pre, post. cbn [String.append] in Hp. now injection Hp.
Qed.

Lemma c_str_length (s : string) :
  c_str s = s \/ (String.length (c_str s) < String.length s)%nat.
Proof.
  induction s as [| c s IH]; [now left |].
  cbn [c_str]. destruct (Ascii.eqb c NUL).
  - right. cbn [String.length]. lia.
  - destruct IH as [-> | IH]; [now left | right]. cbn [String.length]. lia.
Qed.

(** The copy of a name without [NUL] needs one byte more than
    [new char[command.size()]] provides. *)
Lemma new_strcpy_overflow (name : string) (w : World) :
  c_str name = name -> new_strcpy (String.length name) name w = Undefined.
Proof.
  intros Hname. unfold new_strcpy. rewrite Hname.
  destruct (Nat.leb_spec (String.length name + 1) (String.length name)) as [H | _];
    [lia | reflexivity].
Qed.

(** The copy of a name with a [NUL] inside fits and is cut at the [NUL]. *)
Lemma new_strcpy_truncates (name : string) (w : World) :
  c_str name <> name -> new_strcpy (String.length name) name w = Done (c_str name) w.
Proof.
  intros Hname. unfold new_strcpy.
  destruct (c_str_length name) as [H | H]; [congruence |].
  destruct (Nat.leb_spec (String.length (c_str name) + 1) (String.length name)) as [_ | H'];
    [reflexivity | lia].
Qed.

(** The loop of [commandIterator] over keys none of which contains [text]
    ends at [end] and returns null. *)
Lemma commandIterator_loop_no_match (text : string) (i : iterator)
    (rest : list string) (w : World) :
  Forall (fun name => string_contains text name = false) rest ->
  commandIterator_loop text i rest w =
    Done None (set_it (Some (mkIterator (it_container i) (it_keys i) [])) w).
Proof.
  induction 1 as [| name rest Hname _ IH]; [reflexivity |].
  cbn [commandIterator_loop]. now rewrite Hname.
Qed.

(** The loop stops at the first key that contains [text], steps past it and
    copies it into the buffer. *)
Lemma commandIterator_loop_first_match (text : string) (i : iterator)
    (skipped : list string) (name : string) (rest : list string) (w : World) :
  Forall (fun name => string_contains text name = false) skipped ->
  string_contains text name = true ->
  commandIterator_loop text i (skipped ++ name :: rest) w =
    (completion <- new_strcpy (String.length name) name ;; ret (Some completion))
      (set_it (Some (mkIterator (it_container i) (it_keys i) rest)) w).
Proof.
  intros Hskipped Hname.
  induction Hskipped as [| k skipped Hk _ IH]; cbn [app commandIterator_loop].
  - now rewrite Hname.
  - now rewrite Hk.
Qed.

(** A list splits at its first element with a given property, if it has one. *)
Lemma first_match_split (p : string -> bool) (l : list string) :
  Forall (fun x => p x = false) l
  \/ exists skipped x rest,
       l = skipped ++ x :: rest /\ Forall (fun x => p x = false) skipped /\ p x = true.
Proof.
  induction l as [| a l IH]; [left; constructor |].
  destruct (p a) eqn:Ha.
  - right. exists [], a, l. repeat split; [constructor | exact Ha].
  - destruct IH as [Hall | (skipped & x & rest & -> & Hs & Hx)].
    + left. now constructor.
    + right. exists (a :: skipped), x, rest. repeat split; [now constructor | exact Hx].
Qed.

Lemma commandIterator_restart (w : World) (C : addr) (c : Console) (text : string) :
  currentConsole_ w = Some C -> consoles w !! C = Some c ->
  commandIterator text 0 w =
    commandIterator_loop text
      (mkIterator C (map fst (commands_ c)) (map fst (commands_ c)))
      (map fst (commands_ c))
      (set_it (Some (mkIterator C (map fst (commands_ c)) (map fst (commands_ c)))) w).
Proof.
  intros Hcur HC. unfold commandIterator, bind, gets, deref, modify.
  rewrite Hcur, HC. cbn [Z.eqb it set_it it_container it_keys it_rest].
  rewrite !bool_decide_eq_true_2 by reflexivity. reflexivity.
Qed.

Lemma getCommandCompletions_other_column (fuel : nat) (text : string) (start : Z)
    (w : World) :
  start <> 0 -> getCommandCompletions fuel text start w = Done None w.
Proof.
  intros Hstart. unfold getCommandCompletions.
  apply Z.eqb_neq in Hstart. now rewrite Hstart.
Qed.

Lemma getCommandCompletions_no_match (fuel : nat) (text : string) (w : World)
    (C : addr) (c : Console) :
  currentConsole_ w = Some C -> consoles w !! C = Some c ->
  Forall (fun name => string_contains text name = false) (map fst (commands_ c)) ->
  getCommandCompletions (S fuel) text 0 w =
    Done None (set_it (Some (mkIterator C (map fst (commands_ c)) [])) w).
Proof.
  intros Hcur HC Hnone. unfold getCommandCompletions. cbn [Z.eqb].
  unfold rl_completion_matches. unfold bind at 1. cbn [collect_matches].
  unfold bind at 1. change (Z.of_nat (length [])) with 0.
  rewrite (commandIterator_restart w C c text Hcur HC).
  rewrite (commandIterator_loop_no_match text _ _ _ Hnone). reflexivity.
Qed.

Lemma getCommandCompletions_overflow (fuel : nat) (text : string) (w : World)
    (C : addr) (c : Console) :
  currentConsole_ w = Some C -> consoles w !! C = Some c ->
  Forall (fun name => c_str name = name) (map fst (commands_ c)) ->
  Exists (fun name => string_contains text name = true) (map fst (commands_ c)) ->
  getCommandCompletions (S fuel) text 0 w = Undefined.
Proof.
  intros Hcur HC Hnul Hsome. unfold getCommandCompletions. cbn [Z.eqb].
  unfold rl_completion_matches. unfold bind at 1. cbn [collect_matches].
  unfold bind at 1. change (Z.of_nat (length [])) with 0.
  rewrite (commandIterator_restart w C c text Hcur HC).
  destruct (first_match_split (string_contains text) (map fst (commands_ c)))
    as [Hnone | (skipped & name & rest & Hsplit & Hskipped & Hname)].
  - exfalso. apply List.Exists_exists in Hsome as (name & Hin & Hname).
    rewrite List.Forall_forall in Hnone. rewrite (Hnone name Hin) in Hname. discriminate.
  - rewrite Hsplit at 3.
    rewrite (commandIterator_loop_first_match text _ skipped name rest _ Hskipped Hname).
    unfold bind at 1. rewrite new_strcpy_overflow; [reflexivity |].
    rewrite List.Forall_forall in Hnul. apply Hnul.
    rewrite Hsplit. apply in_or_app. right. now left.
Qed.

(** ** The seeded entries "quit" and "exit" *)

Lemma quiet_refl w : quiet w w.
Proof. split; [reflexivity |]. exists []. now rewrite app_nil_r. Qed.

Lemma quiet_trans w1 w2 w3 : quiet w1 w2 -> quiet w2 w3 -> quiet w1 w3.
Proof.
  intros [Hc1 (e1 & Ht1 & Hf1)] [Hc2 (e2 & Ht2 & Hf2)]. split; [congruence |].
  exists (e1 ++ e2). split.
  - now rewrite Ht2, Ht1, app_assoc.
  - apply Forall_app. now split.
Qed.

Lemma quiet_log e w : ~ invokes_quit_or_exit e -> quiet w (log e w).
Proof.
  intros He. split; [reflexivity |]. exists [e]. split; [reflexivity |].
  now constructor.
Qed.

Lemma quiet_set_user u w : quiet w (set_user u w).
Proof. split; [reflexivity |]. exists []. now rewrite app_nil_r. Qed.

Lemma world_ok_quiet w w' : quiet w w' -> world_ok w -> world_ok w'.
Proof. intros [Hc _] Hok p c Hp. rewrite Hc in Hp. exact (Hok p c Hp). Qed.

Lemma guarded_bind {A B} (m : M A) (k : A -> M B) w :
  guarded w (m w) ->
  (forall a w1, m w = Done a w1 -> guarded w1 (k a w1)) ->
  guarded w (bind m k w).
Proof.
  intros Hm Hk. unfold bind. destruct (m w) as [a w1 | w1 | |] eqn:E; try exact Hm.
  specialize (Hk a w1 eq_refl). cbn in Hm.
  destruct (k a w1) as [b w2 | w2 | |]; cbn in *; try exact I.
  - now apply (quiet_trans w w1 w2).
  - destruct Hk as [Hq Hnok]. split; [now apply (quiet_trans w w1 w2) |].
    intros Hok. apply Hnok. now apply (world_ok_quiet w w1).
Qed.

Lemma guarded_cout text w : guarded w (cout text w).
Proof. apply quiet_log. intros []. Qed.

Lemma guarded_ret {A} (a : A) w : guarded w (ret a w).
Proof. apply quiet_refl. Qed.

Lemma guarded_deref p w : guarded w (deref p w).
Proof. unfold deref. destruct (consoles w !! p); [apply quiet_refl | exact I]. Qed.

Lemma guarded_help_lambda t w : guarded w (help_lambda t w).
Proof.
  unfold help_lambda, getRegisteredCommands.
  apply guarded_bind.
  { apply guarded_bind; [apply guarded_deref | intros; apply guarded_ret]. }
  intros names w1 _. apply guarded_bind; [apply guarded_cout |].
  intros _ w2 _. apply guarded_bind; [| intros; apply guarded_ret].
  clear. revert w2. induction names as [| name names IH]; intros w2.
  - apply guarded_ret.
  - apply guarded_bind; [apply guarded_cout | intros; apply IH].
Qed.

Lemma guarded_executeFile_loop (exec : string -> M Z) :
  (forall line w, guarded w (exec line w)) ->
  forall lines n w, guarded w (executeFile_loop exec lines n w).
Proof.
  intros Hexec. induction lines as [| line lines IH]; intros n w.
  - apply guarded_ret.
  - cbn [executeFile_loop]. apply guarded_bind.
    { apply quiet_log. intros []. }
    intros _ w1 _. rewrite string_subscript_0.
    destruct (Ascii.eqb _ HASH); [apply IH |].
    apply guarded_bind; [apply guarded_cout |].
    intros _ w2 _. apply guarded_bind; [apply Hexec |].
    intros r w3 _. destruct (negb (r =? 0)); [apply guarded_ret |].
    apply guarded_bind; [apply guarded_cout | intros; apply IH].
Qed.

Lemma guarded_executeFile_with (exec : string -> M Z) :
  (forall line w, guarded w (exec line w)) ->
  forall filename w, guarded w (executeFile_with exec filename w).
Proof.
  intros Hexec filename w. unfold executeFile_with.
  apply guarded_bind; [apply quiet_refl |].
  intros fs w1 _. destruct (fs filename).
  - now apply guarded_executeFile_loop.
  - apply guarded_bind; [apply guarded_cout | intros; apply guarded_ret].
Qed.

Lemma guarded_call (exec : addr -> string -> M Z) this name f inputs c w :
  (forall t line w, guarded w (exec t line w)) ->
  name <> "quit" -> name <> "exit" ->
  consoles w !! this = Some c ->
  find name (commands_ c) = Some f ->
  guarded w (call exec this name f inputs w).
Proof.
  intros Hexec Hq He Hc Hfind. unfold call.
  assert (Hev : ~ invokes_quit_or_exit (Invoke this name inputs)).
  { intros [H | H]; contradiction. }
  destruct f as [| t | t | h].
  - cbn. split; [now apply quiet_log |].
    intros Hok. destruct (Hok this c Hc name Hfind); contradiction.
  - apply guarded_bind; [now apply quiet_log |].
    intros _ w1 _. apply guarded_bind; [apply guarded_help_lambda |].
    intros; apply guarded_ret.
  - apply guarded_bind; [now apply quiet_log |].
    intros _ w1 _. apply guarded_bind; [| intros; apply guarded_ret].
    unfold run_lambda. destruct inputs as [| input0 [| input1 rest]].
    + exact I.
    + apply guarded_bind; [apply guarded_cout | intros; apply guarded_ret].
    + apply guarded_executeFile_with. apply Hexec.
  - apply guarded_bind; [now apply quiet_log |].
    intros _ w1 _. apply guarded_bind; [apply quiet_refl |].
    intros u w2 _. destruct (h inputs u) as [u' r].
    apply guarded_bind; [apply quiet_set_user | intros; apply guarded_ret].
Qed.

(** Whatever the world and the line, [executeCommand] never calls the
    function stored under "quit" or "exit", and an exception can only come
    from an empty function stored under another name. *)
Lemma guarded_executeCommand (fuel : nat) :
  forall this command w, guarded w (executeCommand fuel this command w).
Proof.
  induction fuel as [| fuel IH]; intros this command w; [exact I |].
  cbn [executeCommand]. destruct (tokenize command) as [| input0 rest].
  - apply guarded_ret.
  - destruct (String.eqb input0 "quit" || String.eqb input0 "exit") eqn:Hq.
    + apply guarded_ret.
    + assert (Hnq : input0 <> "quit").
      { intros ->. discriminate. }
      assert (Hne : input0 <> "exit").
      { intros ->. discriminate. }
      unfold bind at 1, deref.
      destruct (consoles w !! this) as [c |] eqn:Hc; [| exact I].
      destruct (find input0 (commands_ c)) as [f |] eqn:Hfind.
      * apply guarded_bind; [| intros; apply guarded_ret].
        now apply (guarded_call _ this input0 f _ c).
      * apply guarded_bind; [apply guarded_cout | intros; apply guarded_ret].
Qed.

Lemma registry_ok_ctor (this : addr) :
  registry_ok (assign "run" (RunLambda this)
                 (assign "help" (HelpLambda this)
                    [("quit", EmptyFunction); ("exit", EmptyFunction)])).
Proof.
  intros name. cbn.
  destruct (String.eqb name "quit") eqn:E1; [apply String.eqb_eq in E1; auto |].
  destruct (String.eqb name "exit") eqn:E2; [apply String.eqb_eq in E2; auto |].
  destruct (String.eqb name "help"); [discriminate |].
  destruct (String.eqb name "run"); discriminate.
Qed.

(** Registering a non-empty function keeps a registry in order. *)
Lemma registry_ok_assign key f m :
  f <> EmptyFunction -> registry_ok m -> registry_ok (assign key f m).
Proof.
  intros Hf Hm name Hfind.
  destruct (String.string_dec name key) as [-> | Hne].
  - rewrite find_assign_eq in Hfind. congruence.
  - rewrite find_assign_ne in Hfind by exact Hne. now apply Hm.
Qed.

Lemma world_ok_initial (u : U) : world_ok (initial_world u).
Proof. intros p c Hp. cbn in Hp. rewrite lookup_empty in Hp. discriminate. Qed.

Lemma world_ok_Console_ctor (w : World) (this : addr) (greeting : string) :
  world_ok w -> world_ok (world_after (Console_ctor this greeting) w).
Proof.
  intros Hok p c. cbn [world_after Console_ctor store modify consoles set_consoles].
  destruct (decide (p = this)) as [-> | Hne].
  - rewrite lookup_insert_eq. intros [= <-]. apply registry_ok_ctor.
  - rewrite lookup_insert_ne by congruence. apply Hok.
Qed.

(** C10.  In a freshly constructed console the entries "quit" and "exit"
    hold empty functions.  No run of [executeCommand], on whatever line and
    to whatever depth, ever calls the function stored under one of these
    two names; so, as long as no other entry of a live console is empty,
    [executeCommand] never leaves by [std::bad_function_call].  Both names
    are among the commands that [getRegisteredCommands] lists. *)
Theorem quit_exit_entries_never_called (w : World) (this : addr) (greeting : string) :
  world_ok w ->
  exists w' c names,
    Console_ctor this greeting w = Done tt w'
    /\ consoles w' !! this = Some c
    /\ find "quit" (commands_ c) = Some EmptyFunction
    /\ find "exit" (commands_ c) = Some EmptyFunction
    /\ (forall fuel p command w'',
          (exists r, executeCommand fuel p command w' = Done r w'')
          \/ executeCommand fuel p command w' = Thrown w'' ->
          exists evs, trace w'' = trace w' ++ evs
                      /\ Forall (fun e => ~ invokes_quit_or_exit e) evs)
    /\ (forall fuel p command w'', executeCommand fuel p command w' <> Thrown w'')
    /\ getRegisteredCommands this w' = Done names w'
    /\ In "quit" names /\ In "exit" names.
Proof.
  intros Hok.
  eexists _, _, _. split; [reflexivity |].
  split; [cbn; apply lookup_insert_eq |].
  split; [reflexivity |]. split; [reflexivity |].
  set (w' := set_consoles _ w).
  assert (Hok' : world_ok w') by exact (world_ok_Console_ctor w this greeting Hok).
  split; [| split; [| split]].
  - intros fuel p command w'' Hrun.
    pose proof (guarded_executeCommand fuel p command w') as Hg.
    destruct Hrun as [[r Hrun] | Hrun]; rewrite Hrun in Hg; cbn in Hg.
    + exact (proj2 Hg).
    + exact (proj2 (proj1 Hg)).
  - intros fuel p command w'' Hrun.
    pose proof (guarded_executeCommand fuel p command w') as Hg.
    rewrite Hrun in Hg. cbn in Hg. exact (proj2 Hg Hok').
  - unfold getRegisteredCommands, bind, deref, ret. subst w'.
    cbn [consoles set_consoles]. rewrite lookup_insert_eq. reflexivity.
  - cbn. auto.
Qed.

(** ** More on the tokenizer *)

Lemma string_app_cons (c : ascii) (s1 s2 : string) :
  String c s1 +:+ s2 = String c (s1 +:+ s2).
Proof. reflexivity. Qed.

Lemma string_app_nil_l (s : string) : "" +:+ s = s.
Proof. reflexivity. Qed.

Lemma string_app_assoc (s1 s2 s3 : string) : (s1 +:+ s2) +:+ s3 = s1 +:+ (s2 +:+ s3).
Proof.
  induction s1 as [| c s1 IH]; [reflexivity |].
  rewrite !string_app_cons. now rewrite IH.
Qed.

Lemma string_app_nil_r (s : string) : s +:+ "" = s.
Proof.
  induction s as [| c s IH]; [reflexivity |].
  rewrite string_app_cons. now rewrite IH.
Qed.

Lemma all_space_tail c s : all_space (String c s) -> isspace c = true /\ all_space s.
Proof.
  intros H. split; [apply H; now left |]. intros x Hx. apply H. now right.
Qed.

Lemma no_space_tail c s : no_space (String c s) -> isspace c = false /\ no_space s.
Proof.
  intros H. split; [apply H; now left |]. intros x Hx. apply H. now right.
Qed.

(** White space alone ends the token in hand and yields nothing more. *)
Lemma extract_tokens_space pad : forall tok,
  all_space pad ->
  extract_tokens tok pad = if string_empty tok then [] else [tok].
Proof.
  induction pad as [| c pad IH]; intros tok Hpad; [reflexivity |].
  apply all_space_tail in Hpad as [Hc Hpad]. cbn [extract_tokens]. rewrite Hc.
  rewrite (IH "" Hpad). destruct (string_empty tok); reflexivity.
Qed.

Lemma extract_tokens_leading pad s :
  all_space pad -> extract_tokens "" (pad +:+ s) = extract_tokens "" s.
Proof.
  induction pad as [| c pad IH]; intros Hpad; [reflexivity |].
  apply all_space_tail in Hpad as [Hc Hpad].
  rewrite string_app_cons. cbn [extract_tokens]. rewrite Hc. cbn [string_empty].
  now apply IH.
Qed.

Lemma extract_tokens_trailing pad s : forall tok,
  all_space pad -> extract_tokens tok (s +:+ pad) = extract_tokens tok s.
Proof.
  induction s as [| c s IH]; intros tok Hpad.
  - rewrite string_app_nil_l. now apply extract_tokens_space.
  - rewrite string_app_cons. cbn [extract_tokens].
    destruct (isspace c); [destruct (string_empty tok) |]; now rewrite IH.
Qed.

Lemma extract_tokens_word t s : forall tok,
  no_space t -> extract_tokens tok (t +:+ s) = extract_tokens (tok +:+ t) s.
Proof.
  induction t as [| c t IH]; intros tok Ht.
  - now rewrite string_app_nil_r.
  - apply no_space_tail in Ht as [Hc Ht].
    rewrite string_app_cons. cbn [extract_tokens]. rewrite Hc.
    rewrite (IH _ Ht), string_app_assoc. reflexivity.
Qed.

Lemma glue_extract_tokens s : forall tok,
  glue (extract_tokens tok s) = tok +:+ strip_space s.
Proof.
  induction s as [| c s IH]; intros tok; cbn [extract_tokens strip_space].
  - destruct tok; [reflexivity |]. cbn [string_empty glue fold_right].
    reflexivity.
  - destruct (isspace c).
    + destruct tok as [| a tok]; cbn [string_empty].
      * apply IH.
      * cbn [glue fold_right]. fold (glue (extract_tokens "" s)). now rewrite IH.
    + rewrite IH, string_app_assoc. reflexivity.
Qed.

Lemma tokenize_padded pad1 pad2 command :
  all_space pad1 -> all_space pad2 ->
  tokenize (pad1 +:+ command +:+ pad2) = tokenize command.
Proof.
  intros H1 H2. unfold tokenize.
  rewrite (extract_tokens_leading pad1 _ H1). now apply extract_tokens_trailing.
Qed.

Lemma tokenize_all_space line : all_space line -> tokenize line = [].
Proof. intros H. unfold tokenize. now rewrite extract_tokens_space. Qed.

(** X1.  The tokens of a line, put one after the other, are the line with
    its white space removed, and every token is a non-empty string without
    white space: tokenizing drops white space and nothing else. *)
Theorem tokenize_characterised (command : string) :
  glue (tokenize command) = strip_space command
  /\ forall t, In t (tokenize command) -> t <> "" /\ no_space t.
Proof.
  split.
  - unfold tokenize. now rewrite glue_extract_tokens.
  - intros t. apply tokenize_fields.
Qed.

(** X3.  Words that are non-empty and free of white space, written with
    single blanks between them, tokenize back to themselves. *)
Theorem tokenize_unwords (ts : list string) :
  Forall (fun t => t <> "" /\ no_space t) ts ->
  tokenize (unwords ts) = ts.
Proof.
  unfold tokenize.
  induction 1 as [| t ts [Hne Ht] Hts IH]; [reflexivity |].
  cbn [unwords]. destruct ts as [| t' ts'].
  - pose proof (extract_tokens_word t "" "" Ht) as Hw.
    rewrite string_app_nil_r, string_app_nil_l in Hw. rewrite Hw.
    cbn [extract_tokens]. destruct t; [congruence | reflexivity].
  - rewrite (extract_tokens_word t _ "" Ht).
    rewrite string_app_nil_l. cbn [extract_tokens].
    change (isspace " ") with true. cbv iota.
    destruct t; [congruence |]. cbn [string_empty]. now rewrite IH.
Qed.

Lemma executeCommand_tokens (fuel : nat) (this : addr) (c1 c2 : string) (w : World) :
  tokenize c1 = tokenize c2 ->
  executeCommand fuel this c1 w = executeCommand fuel this c2 w.
Proof.
  intros Heq. destruct fuel as [| fuel]; [reflexivity |].
  cbn [executeCommand]. now rewrite Heq.
Qed.

(** X2.  White space before and after a line plays no part: with or without
    it [executeCommand] does the same and returns the same. *)
Theorem executeCommand_ignores_outer_space (fuel : nat) (this : addr)
    (pad1 pad2 command : string) (w : World) :
  all_space pad1 -> all_space pad2 ->
  executeCommand fuel this (pad1 +:+ command +:+ pad2) w =
    executeCommand fuel this command w.
Proof.
  intros H1 H2. apply executeCommand_tokens. now apply tokenize_padded.
Qed.

(** ** What a command can change *)

Section Kept.

Variable R : World -> World -> Prop.
Hypothesis R_refl : forall w, R w w.
Hypothesis R_trans : forall w1 w2 w3, R w1 w2 -> R w2 w3 -> R w1 w3.
Hypothesis R_log : forall e w, R w (log e w).
Hypothesis R_user : forall u w, R w (set_user u w).

Lemma kept_bind {A B} (m : M A) (k : A -> M B) w :
  kept R w (m w) ->
  (forall a w1, m w = Done a w1 -> kept R w1 (k a w1)) ->
  kept R w (bind m k w).
Proof.
  intros Hm Hk. unfold bind. destruct (m w) as [a w1 | w1 | |] eqn:E; try exact Hm.
  specialize (Hk a w1 eq_refl). cbn in Hm.
  destruct (k a w1) as [b w2 | w2 | |]; cbn in *; try exact I;
    now apply (R_trans w w1 w2).
Qed.

Lemma kept_ret {A} (a : A) w : kept R w (ret a w).
Proof. apply R_refl. Qed.

Lemma kept_cout text w : kept R w (cout text w).
Proof. apply R_log. Qed.

Lemma kept_deref p w : kept R w (deref p w).
Proof. unfold deref. destruct (consoles w !! p); [apply R_refl | exact I]. Qed.

Lemma kept_help_lambda t w : kept R w (help_lambda t w).
Proof.
  unfold help_lambda, getRegisteredCommands.
  apply kept_bind.
  { apply kept_bind; [apply kept_deref | intros; apply kept_ret]. }
  intros names w1 _. apply kept_bind; [apply kept_cout |].
  intros _ w2 _. apply kept_bind; [| intros; apply kept_ret].
  revert w2. induction names as [| name names IH]; intros w2.
  - apply kept_ret.
  - apply kept_bind; [apply kept_cout | intros; apply IH].
Qed.

Lemma kept_executeFile_loop (exec : string -> M Z) :
  (forall line w, kept R w (exec line w)) ->
  forall lines n w, kept R w (executeFile_loop exec lines n w).
Proof.
  intros Hexec. induction lines as [| line lines IH]; intros n w.
  - apply kept_ret.
  - cbn [executeFile_loop]. apply kept_bind; [apply R_log |].
    intros _ w1 _. rewrite string_subscript_0.
    destruct (Ascii.eqb _ HASH); [apply IH |].
    apply kept_bind; [apply kept_cout |].
    intros _ w2 _. apply kept_bind; [apply Hexec |].
    intros r w3 _. destruct (negb (r =? 0)); [apply kept_ret |].
    apply kept_bind; [apply kept_cout | intros; apply IH].
Qed.

Lemma kept_executeFile_with (exec : string -> M Z) :
  (forall line w, kept R w (exec line w)) ->
  forall filename w, kept R w (executeFile_with exec filename w).
Proof.
  intros Hexec filename w. unfold executeFile_with.
  apply kept_bind; [apply R_refl |].
  intros fs w1 _. destruct (fs filename).
  - now apply kept_executeFile_loop.
  - apply kept_bind; [apply kept_cout | intros; apply kept_ret].
Qed.

Lemma kept_call (exec : addr -> string -> M Z) this name f inputs w :
  (forall t line w, kept R w (exec t line w)) ->
  kept R w (call exec this name f inputs w).
Proof.
  intros Hexec. unfold call. apply kept_bind; [apply R_log |].
  intros _ w1 _. destruct f as [| t | t | h].
  - apply R_refl.
  - apply kept_bind; [apply kept_help_lambda | intros; apply kept_ret].
  - apply kept_bind; [| intros; apply kept_ret].
    unfold run_lambda. destruct inputs as [| input0 [| input1 rest]].
    + exact I.
    + apply kept_bind; [apply kept_cout | intros; apply kept_ret].
    + apply kept_executeFile_with. apply Hexec.
  - apply kept_bind; [apply R_refl |].
    intros u w2 _. destruct (h inputs u) as [u' r].
    apply kept_bind; [apply R_user | intros; apply kept_ret].
Qed.

Lemma kept_executeCommand (fuel : nat) :
  forall this command w, kept R w (executeCommand fuel this command w).
Proof.
  induction fuel as [| fuel IH]; intros this command w; [exact I |].
  cbn [executeCommand]. destruct (tokenize command) as [| input0 rest].
  - apply kept_ret.
  - destruct (String.eqb input0 "quit" || String.eqb input0 "exit").
    + apply kept_ret.
    + apply kept_bind; [apply kept_deref |].
      intros c w1 _. destruct (find input0 (commands_ c)) as [f |].
      * apply kept_bind; [| intros; apply kept_ret]. now apply kept_call.
      * apply kept_bind; [apply kept_cout | intros; apply kept_ret].
Qed.

End Kept.

Lemma untouched_refl w : untouched w w.
Proof. repeat split. exists []. now rewrite app_nil_r. Qed.

Lemma untouched_trans w1 w2 w3 : untouched w1 w2 -> untouched w2 w3 -> untouched w1 w3.
Proof.
  intros (Ha & Hb & Hc & Hd & He & Hf & e1 & Ht1) (Ha' & Hb' & Hc' & Hd' & He' & Hf' & e2 & Ht2).
  repeat split; try congruence.
  exists (e1 ++ e2). now rewrite Ht2, Ht1, app_assoc.
Qed.

Lemma untouched_log e w : untouched w (log e w).
Proof. repeat split. now exists [e]. Qed.

Lemma untouched_set_user u w : untouched w (set_user u w).
Proof. repeat split. exists []. cbn. now rewrite app_nil_r. Qed.

Lemma untouched_executeCommand fuel this command w :
  kept untouched w (executeCommand fuel this command w).
Proof.
  apply kept_executeCommand;
    [apply untouched_refl | apply untouched_trans | apply untouched_log
    | apply untouched_set_user].
Qed.

(** X9.  With application handlers that only compute on their tokens and
    their own state (they call neither a console nor the engine), executing
    a command or a script, to whatever depth and whether it returns or
    throws, leaves the consoles and their registries, the active owner, the
    history in the engine, the empty sentinel, the static iterator of the
    completion and the files as they were; what was written and called
    before stays at the front of the trace.  The dispatcher and the built-in
    "help" and "run" themselves change none of these. *)
Theorem executeCommand_untouched (fuel : nat) (this : addr) (text : string) (w : World) :
  kept untouched w (executeCommand fuel this text w)
  /\ kept untouched w (executeFile fuel this text w).
Proof.
  split; [apply untouched_executeCommand |].
  unfold executeFile.
  apply kept_executeFile_with;
    [apply untouched_refl | apply untouched_trans | apply untouched_log |].
  intros line w0. apply untouched_executeCommand.
Qed.

(** ** More on the dispatcher *)

(** X4.  What an application handler returns comes back from
    [executeCommand] unchanged as long as it is at most [INT_MAX]; a result
    above [INT_MAX] comes back lowered by 2^32, as a negative code. *)
Theorem handler_result_passes (fuel : nat) (w : World) (this : addr)
    (c : Console) (command name : string) (args : list string)
    (h : list string -> U -> U * Z) :
  consoles w !! this = Some c ->
  tokenize command = name :: args ->
  name <> "quit" -> name <> "exit" ->
  find name (commands_ c) = Some (UserFunction h) ->
  exists code w',
    executeCommand (S fuel) this command w = Done code w'
    /\ (0 <= snd (h (name :: args) (user w)) <= INT_MAX ->
        code = snd (h (name :: args) (user w)))
    /\ (INT_MAX < snd (h (name :: args) (user w)) < UINT_MODULUS ->
        code = snd (h (name :: args) (user w)) - UINT_MODULUS /\ code < 0).
Proof.
  intros Hc Htok Hq He Hfind.
  rewrite (executeCommand_user fuel w this c command name args h Hc Htok Hq He Hfind).
  eexists _, _. split; [reflexivity |].
  set (r := snd (h (name :: args) (user w))).
  unfold static_cast_int, to_unsigned, INT_MAX, UINT_MODULUS.
  rewrite Z.mod_mod by lia. split; intros Hr.
  - rewrite Z.mod_small by lia. destruct (Z.leb_spec r (2 ^ 31 - 1)); lia.
  - rewrite Z.mod_small by lia. destruct (Z.leb_spec r (2 ^ 31 - 1)); lia.
Qed.

(** X5.  [registerCommand] accepts an empty function; a line that then
    dispatches to it makes [executeCommand] leave by
    [std::bad_function_call] instead of returning a code. *)
Theorem empty_function_throws (fuel : nat) (w : World) (this : addr)
    (c : Console) (command name : string) (args : list string) :
  consoles w !! this = Some c ->
  tokenize command = name :: args ->
  name <> "quit" -> name <> "exit" ->
  exists w1,
    registerCommand this name EmptyFunction w = Done tt w1
    /\ executeCommand (S fuel) this command w1 =
         Thrown (log (Invoke this name (name :: args)) w1).
Proof.
  intros Hc Htok Hq He.
  eexists. split.
  - unfold registerCommand, bind, deref, store, modify. rewrite Hc. reflexivity.
  - rewrite (executeCommand_found fuel _ this
               (mkConsole (greeting_ c) (assign name EmptyFunction (commands_ c)) (history_ c))
               command name args EmptyFunction); try assumption.
    + reflexivity.
    + cbn. apply lookup_insert_eq.
    + cbn. apply find_assign_eq.
Qed.

Lemma log_all_app evs1 evs2 w : log_all (evs1 ++ evs2) w = log_all evs2 (log_all evs1 w).
Proof. unfold log_all. apply fold_left_app. Qed.

Lemma help_lambda_run (t : addr) (ct : Console) (w : World) :
  consoles w !! t = Some ct ->
  help_lambda t w =
    Done 0 (log_all (Cout ("Available commands are:" +:+ String NEWLINE "")
                     :: map help_line (map fst (commands_ ct))) w).
Proof.
  intros Ht. unfold help_lambda, getRegisteredCommands.
  unfold bind at 1. unfold bind at 1. unfold deref. rewrite Ht.
  unfold ret at 1. unfold bind at 1. unfold cout at 1, modify at 1.
  cbn [log_all fold_left].
  generalize (log (Cout ("Available commands are:" +:+ String NEWLINE "")) w).
  generalize (map fst (commands_ ct)). clear.
  induction l as [| name names IH]; intros w.
  - reflexivity.
  - unfold bind at 1. unfold bind at 1. unfold cout at 1, modify at 1.
    cbn [map fold_left]. specialize (IH (log (help_line name) w)).
    unfold bind at 1 in IH. unfold help_line at 2. exact IH.
Qed.

(** X6.  The built-in "help", with or without arguments, prints the heading
    and then one line for each command of the registry, in the order of the
    registry, and returns [Ok]; it changes nothing else. *)
Theorem help_lists_commands (fuel : nat) (w : World) (this t : addr)
    (c ct : Console) (command name : string) (args : list string) :
  consoles w !! this = Some c ->
  tokenize command = name :: args ->
  name <> "quit" -> name <> "exit" ->
  find name (commands_ c) = Some (HelpLambda t) ->
  consoles w !! t = Some ct ->
  executeCommand (S fuel) this command w =
    Done ReturnCode.Ok
      (log_all (Invoke this name (name :: args)
                :: Cout ("Available commands are:" +:+ String NEWLINE "")
                :: map help_line (map fst (commands_ ct))) w).
Proof.
  intros Hc Htok Hq He Hfind Ht.
  rewrite (executeCommand_found fuel w this c command name args _ Hc Htok Hq He Hfind).
  unfold call. unfold bind at 1. unfold bind at 1. unfold modify at 1.
  unfold bind at 1.
  rewrite (help_lambda_run t ct (log (Invoke this name (name :: args)) w) Ht).
  reflexivity.
Qed.

(** X7.  The built-in "run" without a file name prints its usage line, in
    which the command appears as it was typed, and returns [Error]; no file
    is opened and no command is executed. *)
Theorem run_without_argument (fuel : nat) (w : World) (this t : addr)
    (c : Console) (command name : string) :
  consoles w !! this = Some c ->
  tokenize command = [name] ->
  name <> "quit" -> name <> "exit" ->
  find name (commands_ c) = Some (RunLambda t) ->
  executeCommand (S fuel) this command w =
    Done ReturnCode.Error
      (log (Cout ("Usage: " +:+ name +:+ " script_filename" +:+ String NEWLINE ""))
         (log (Invoke this name [name]) w)).
Proof.
  intros Hc Htok Hq He Hfind.
  rewrite (executeCommand_found fuel w this c command name [] _ Hc Htok Hq He Hfind).
  reflexivity.
Qed.

Lemma executeCommand_range fuel this command w r w' :
  executeCommand fuel this command w = Done r w' -> in_int r.
Proof.
  destruct fuel as [| fuel]; [discriminate |].
  cbn [executeCommand]. destruct (tokenize command) as [| input0 rest].
  - intros [= <- _]. unfold in_int, INT_MIN, INT_MAX, ReturnCode.Ok. lia.
  - destruct (String.eqb input0 "quit" || String.eqb input0 "exit").
    + intros [= <- _]. unfold in_int, INT_MIN, INT_MAX, ReturnCode.Quit. lia.
    + unfold bind at 1, deref. destruct (consoles w !! this) as [c |]; [| discriminate].
      destruct (find input0 (commands_ c)) as [f |].
      * unfold bind at 1.
        destruct (call _ this input0 f (input0 :: rest) w) as [u w1 | | |];
          try discriminate.
        intros [= <- _]. apply static_cast_int_range.
      * intros [= <- _]. unfold in_int, INT_MIN, INT_MAX, ReturnCode.Error. lia.
Qed.

Lemma executeFile_loop_range (exec : string -> M Z) :
  (forall line w r w', exec line w = Done r w' -> in_int r) ->
  forall lines n w r w', executeFile_loop exec lines n w = Done r w' -> in_int r.
Proof.
  intros Hexec. induction lines as [| line lines IH]; intros n w r w'.
  - intros [= <- _]. unfold in_int, INT_MIN, INT_MAX, ReturnCode.Ok. lia.
  - destruct (is_comment line) eqn:Hc.
    + rewrite executeFile_loop_comment by exact Hc. apply IH.
    + rewrite executeFile_loop_exec by exact Hc. unfold bind at 1.
      destruct (exec line _) as [r0 w1 | | |] eqn:E; try discriminate.
      destruct (negb (r0 =? 0)).
      * intros [= <- _]. exact (Hexec _ _ _ _ E).
      * unfold bind at 1, cout, modify. apply IH.
Qed.

Lemma executeFile_range fuel this filename w r w' :
  executeFile fuel this filename w = Done r w' -> in_int r.
Proof.
  unfold executeFile, executeFile_with, bind at 1, gets.
  destruct (files w filename) as [content |].
  - apply executeFile_loop_range. intros line w0 r0 w0'. apply executeCommand_range.
  - intros [= <- _]. unfold in_int, INT_MIN, INT_MAX, ReturnCode.Error. lia.
Qed.

(** X8.  The built-in "run" with a file name hands back exactly what
    [executeFile] returns for that file, in the world the script left: the
    code survives the conversion to [unsigned] and back, so a [Quit] or an
    [Error] of the script is the result of the command.  Tokens after the
    file name are ignored. *)
Theorem run_returns_script_result (fuel : nat) (w w' : World) (this t : addr)
    (c : Console) (command name path : string) (more : list string) (r : Z) :
  consoles w !! this = Some c ->
  tokenize command = name :: path :: more ->
  name <> "quit" -> name <> "exit" ->
  find name (commands_ c) = Some (RunLambda t) ->
  executeFile fuel t path (log (Invoke this name (name :: path :: more)) w) = Done r w' ->
  executeCommand (S fuel) this command w = Done r w'.
Proof.
  intros Hc Htok Hq He Hfind Hrun.
  rewrite (executeCommand_found fuel w this c command name (path :: more) _
             Hc Htok Hq He Hfind).
  unfold call. unfold bind at 1. unfold bind at 1. unfold modify at 1.
  unfold bind at 1. cbn [run_lambda].
  change (executeFile_with (executeCommand fuel t) path) with (executeFile fuel t path).
  rewrite Hrun. unfold ret.
  rewrite (static_cast_int_to_unsigned r (executeFile_range _ _ _ _ _ _ Hrun)).
  reflexivity.
Qed.

(** ** More on the history multiplexer *)

Lemma own_history_active (w : World) (p : addr) (c : Console) :
  currentConsole_ w = Some p -> own_history w p c = rl_history w.
Proof. intros H. unfold own_history. now rewrite bool_decide_eq_true_2. Qed.

Lemma own_history_inactive (w : World) (p : addr) (c : Console) :
  currentConsole_ w <> Some p -> own_history w p c = snapshot_or_empty w c.
Proof. intros H. unfold own_history. now rewrite bool_decide_eq_false_2. Qed.

Lemma reserveConsole_histories (w : World) (C : addr) (c : Console) :
  consoles w !! C = Some c ->
  owner_live w ->
  exists w',
    reserveConsole C w = Done tt w'
    /\ currentConsole_ w' = Some C
    /\ emptyHistory_ w' = emptyHistory_ w
    /\ forall X x, consoles w !! X = Some x ->
         exists x', consoles w' !! X = Some x'
                    /\ own_history w' X x' = own_history w X x
                    /\ commands_ x' = commands_ x
                    /\ greeting_ x' = greeting_ x.
Proof.
  intros HC Hlive. destruct (currentConsole_ w) as [A |] eqn:Hcur.
  - destruct (decide (A = C)) as [-> | Hne].
    + exists w. split; [now apply reserveConsole_active |].
      split; [exact Hcur |]. split; [reflexivity |].
      intros X x HX. now exists x.
    + destruct (Hlive A Hcur) as [a HA].
      eexists. split; [exact (reserveConsole_switch w C A c a HC Hcur Hne HA) |].
      split; [reflexivity |]. split; [reflexivity |].
      intros X x HX. cbn [consoles set_consoles set_rl_history set_currentConsole_].
      destruct (decide (X = A)) as [-> | HXA].
      * rewrite lookup_insert_eq. eexists. split; [reflexivity |].
        assert (x = a) as -> by congruence.
        rewrite own_history_inactive by (cbn; congruence).
        rewrite own_history_active by exact Hcur. repeat split.
      * rewrite lookup_insert_ne by congruence. exists x. split; [exact HX |].
        split; [| split; reflexivity].
        destruct (decide (X = C)) as [-> | HXC].
        -- assert (x = c) as -> by congruence.
           rewrite own_history_active by reflexivity.
           rewrite own_history_inactive by congruence. reflexivity.
        -- rewrite !own_history_inactive by (cbn; congruence). reflexivity.
  - eexists. split; [exact (reserveConsole_idle w C c HC Hcur) |].
    split; [reflexivity |]. split; [reflexivity |].
    intros X x HX. exists x. split; [exact HX |]. split; [| split; reflexivity].
    destruct (decide (X = C)) as [-> | HXC].
    + assert (x = c) as -> by congruence.
      rewrite own_history_active by reflexivity.
      rewrite own_history_inactive by congruence. reflexivity.
    + rewrite !own_history_inactive by (cbn; congruence). reflexivity.
Qed.

Lemma reserveConsole_owner_live (w w' : World) (C : addr) (c : Console) :
  consoles w !! C = Some c -> owner_live w ->
  reserveConsole C w = Done tt w' -> owner_live w'.
Proof.
  intros HC Hlive Hres A HA.
  destruct (reserveConsole_histories w C c HC Hlive) as (w0 & Hres0 & Hcur & _ & Hall).
  rewrite Hres in Hres0. injection Hres0 as <-.
  assert (A = C) as -> by congruence.
  destruct (Hall C c HC) as (c' & Hc' & _). now exists c'.
Qed.

(** X10.  Handing the engine over never changes what belongs to whom: when
    [currentConsole_] is null or live, [reserveConsole] on a live console
    returns with that console as the owner, and every live console has the
    same own history (the engine's while it is the owner, its snapshot or
    the empty sentinel otherwise), the same registry and the same greeting
    as before. *)
Theorem reserveConsole_keeps_histories (w : World) (C : addr) (c : Console) :
  consoles w !! C = Some c ->
  owner_live w ->
  exists w',
    reserveConsole C w = Done tt w'
    /\ is_active w' C
    /\ owner_live w'
    /\ forall X x, consoles w !! X = Some x ->
         exists x', consoles w' !! X = Some x'
                    /\ own_history w' X x' = own_history w X x
                    /\ commands_ x' = commands_ x
                    /\ greeting_ x' = greeting_ x.
Proof.
  intros HC Hlive.
  destruct (reserveConsole_histories w C c HC Hlive) as (w' & Hres & Hcur & _ & Hall).
  exists w'. split; [exact Hres |]. split; [exact Hcur |].
  split; [exact (reserveConsole_owner_live w w' C c HC Hlive Hres) | exact Hall].
Qed.

Lemma own_history_untouched (w w' : World) (p : addr) (c : Console) :
  untouched w w' -> own_history w' p c = own_history w p c.
Proof.
  intros (_ & Hcur & Hempty & Hrl & _).
  unfold own_history, snapshot_or_empty. now rewrite Hcur, Hempty, Hrl.
Qed.

Lemma line_recorded_untouched (w : World) (C : addr) (c : Console) (line : string)
    (w2 w' : World) :
  untouched w2 w' -> line_recorded w C c line w2 -> line_recorded w C c line w'.
Proof.
  intros Hu (Hact & (c' & Hc' & Hown) & Hothers).
  pose proof Hu as (Hcons & Hcur & _).
  split; [unfold is_active in *; congruence |]. split.
  - exists c'. split; [congruence |]. now rewrite (own_history_untouched w2 w' C c' Hu).
  - intros X x HXC HX. destruct (Hothers X x HXC HX) as (x' & Hx' & Hown').
    exists x'. split; [congruence |]. now rewrite (own_history_untouched w2 w' X x' Hu).
Qed.

(** X11.  Let [currentConsole_] be null or point to a live console, and let
    the application's handlers only compute on their tokens and their own
    state.  [readLine] at the end of the input reserves the console, prints
    a newline and returns [Quit].  [readLine] on a line first makes the
    console the owner and appends the line to the console's own history when
    the line is not empty (nothing when it is), leaving the own histories of
    all other consoles as they were, and then is [executeCommand] on that
    line; whether the command returns (with whatever code) or throws, all of
    this still holds in the world it ends in. *)
Theorem readLine_records (fuel : nat) (w : World) (C : addr) (c : Console) :
  consoles w !! C = Some c ->
  owner_live w ->
  (exists w1, reserveConsole C w = Done tt w1
              /\ readLine fuel C None w =
                   Done ReturnCode.Quit (log (Cout (String NEWLINE "")) w1))
  /\ (forall line, exists w2,
        readLine fuel C (Some line) w = executeCommand fuel C line w2
        /\ line_recorded w C c line w2
        /\ kept (fun _ w' => line_recorded w C c line w') w2
                (readLine fuel C (Some line) w)).
Proof.
  intros HC Hlive.
  destruct (reserveConsole_histories w C c HC Hlive) as (w1 & Hres & Hcur & Hempty & Hall).
  split.
  - exists w1. split; [exact Hres |].
    unfold readLine. unfold bind at 1. rewrite Hres. reflexivity.
  - intros line.
    set (w2 := if string_empty line then w1
               else set_rl_history (engine_add_history line (rl_history w1)) w1).
    assert (Hstep : (if negb (string_empty line) then add_history line else ret tt) w1
                    = Done tt w2).
    { subst w2. destruct (string_empty line); reflexivity. }
    assert (Hread : readLine fuel C (Some line) w = executeCommand fuel C line w2).
    { unfold readLine. unfold bind at 1. rewrite Hres.
      unfold bind at 1. now rewrite Hstep. }
    assert (Hcons2 : consoles w2 = consoles w1).
    { subst w2. destruct (string_empty line); reflexivity. }
    assert (Hcur2 : currentConsole_ w2 = Some C).
    { subst w2. destruct (string_empty line); exact Hcur. }
    assert (Hempty2 : emptyHistory_ w2 = emptyHistory_ w1).
    { subst w2. destruct (string_empty line); reflexivity. }
    assert (Hrl2 : entries (rl_history w2) =
                   entries (rl_history w1) ++ (if string_empty line then [] else [line])).
    { subst w2. destruct (string_empty line); cbn; [now rewrite app_nil_r | reflexivity]. }
    assert (Hrec : line_recorded w C c line w2).
    { split; [exact Hcur2 |]. split.
      - destruct (Hall C c HC) as (c' & Hc' & Hown & _).
        exists c'. split; [congruence |].
        rewrite own_history_active by exact Hcur2.
        rewrite Hrl2, <- Hown. now rewrite (own_history_active w1 C c' Hcur).
      - intros X x HXC HX. destruct (Hall X x HX) as (x' & Hx' & Hown' & _).
        exists x'. split; [congruence |].
        rewrite <- Hown'. rewrite !own_history_inactive by congruence.
        unfold snapshot_or_empty. now rewrite Hempty2. }
    exists w2. split; [exact Hread |]. split; [exact Hrec |].
    rewrite Hread.
    pose proof (untouched_executeCommand fuel C line w2) as Hu.
    destruct (executeCommand fuel C line w2) as [r w' | w' | |]; cbn [kept] in *;
      try exact I; now apply (line_recorded_untouched w C c line w2 w').
Qed.

(** X12.  As long as [currentConsole_] is null or points to a live console
    (no console was destroyed while it was the active owner), a fresh
    console does not inherit history: constructed at an address where no
    console lives and then reserved, it is the owner and the visible history
    is that of the empty sentinel, whatever the engine held before. *)
Theorem fresh_console_sees_empty_history (w : World) (this : addr) (greeting : string) :
  owner_live w ->
  consoles w !! this = None ->
  exists w1 w2,
    Console_ctor this greeting w = Done tt w1
    /\ reserveConsole this w1 = Done tt w2
    /\ is_active w2 this
    /\ visible_history w2 = entries (emptyHistory_ w).
Proof.
  intros Hlive Hfresh.
  set (c := mkConsole greeting
              (assign "run" (RunLambda this)
                 (assign "help" (HelpLambda this)
                    [("quit", EmptyFunction); ("exit", EmptyFunction)])) None).
  set (w1 := set_consoles (<[this := c]> (consoles w)) w).
  assert (Hctor : Console_ctor this greeting w = Done tt w1) by reflexivity.
  assert (Hc : consoles w1 !! this = Some c) by (cbn; apply lookup_insert_eq).
  destruct (currentConsole_ w) as [A |] eqn:Hcur.
  - destruct (Hlive A Hcur) as [a HA].
    assert (Hne : A <> this) by congruence.
    assert (HA1 : consoles w1 !! A = Some a).
    { cbn. now rewrite lookup_insert_ne by congruence. }
    eexists w1, _. split; [exact Hctor |].
    split; [exact (reserveConsole_switch w1 this A c a Hc Hcur Hne HA1) |].
    split; reflexivity.
  - eexists w1, _. split; [exact Hctor |].
    split; [exact (reserveConsole_idle w1 this c Hc Hcur) |].
    split; reflexivity.
Qed.

(** X13.  The destructor does not reset [currentConsole_]: once the active
    owner is destroyed the pointer dangles, and the next [reserveConsole] or
    [readLine] of another console and the next completion request
    dereference it, which is undefined behaviour. *)
Theorem destroyed_owner_is_dangling (w : World) (A B : addr) (b : Console) :
  consoles w !! B = Some b ->
  is_active w B ->
  A <> B ->
  exists w1,
    Console_dtor B w = Done tt w1
    /\ currentConsole_ w1 = Some B
    /\ consoles w1 !! B = None
    /\ reserveConsole A w1 = Undefined
    /\ (forall fuel input, readLine fuel A input w1 = Undefined)
    /\ (forall text state, commandIterator text state w1 = Undefined).
Proof.
  intros HB Hact Hne. unfold is_active in Hact.
  exists (set_consoles (delete B (consoles w)) w).
  assert (Hgone : consoles (set_consoles (delete B (consoles w)) w) !! B = None).
  { cbn. apply lookup_delete_eq. }
  assert (Hres : reserveConsole A (set_consoles (delete B (consoles w)) w) = Undefined).
  { apply (reserveConsole_dangling _ A B); [exact Hact | congruence | exact Hgone]. }
  split.
  { unfold Console_dtor, bind, deref, modify. rewrite HB. reflexivity. }
  split; [exact Hact |]. split; [exact Hgone |]. split; [exact Hres |]. split.
  - intros fuel input. unfold readLine. unfold bind at 1. now rewrite Hres.
  - intros text state. unfold commandIterator. unfold bind at 1, gets.
    cbn [currentConsole_ set_consoles]. rewrite Hact.
    unfold bind at 1, deref. now rewrite Hgone.
Qed.

(** X14.  A console constructed at the address of a console that was
    destroyed while it was the active owner is taken for the owner:
    [reserveConsole] does nothing for it, and it sees the history the
    destroyed console left in the engine. *)
Theorem reused_address_inherits_history (w : World) (B : addr) (b : Console)
    (greeting : string) :
  consoles w !! B = Some b ->
  is_active w B ->
  exists w1 w2,
    Console_dtor B w = Done tt w1
    /\ Console_ctor B greeting w1 = Done tt w2
    /\ reserveConsole B w2 = Done tt w2
    /\ visible_history w2 = visible_history w.
Proof.
  intros HB Hact. unfold is_active in Hact.
  eexists _, _. split.
  { unfold Console_dtor, bind, deref, modify. rewrite HB. reflexivity. }
  split; [reflexivity |]. split; [| reflexivity].
  apply reserveConsole_active. exact Hact.
Qed.

(** ** More on the registry *)

Lemma assign_keys_present key f (m : RegisteredCommands) :
  In key (map fst m) -> map fst (assign key f m) = map fst m.
Proof.
  induction m as [| [k g] m IH]; cbn [assign map fst In]; [contradiction |].
  intros Hin. destruct (String.eqb key k) eqn:E; [reflexivity |].
  cbn [map fst]. f_equal. apply IH. destruct Hin as [-> | Hin]; [| exact Hin].
  rewrite String.eqb_refl in E. discriminate.
Qed.

Lemma assign_keys_absent key f (m : RegisteredCommands) :
  ~ In key (map fst m) -> map fst (assign key f m) = map fst m ++ [key].
Proof.
  induction m as [| [k g] m IH]; cbn [assign map fst In]; [reflexivity |].
  intros Hnin. destruct (String.eqb key k) eqn:E.
  - apply String.eqb_eq in E. subst k. exfalso. apply Hnin. now left.
  - cbn [map fst app]. f_equal. apply IH. intros Hin. apply Hnin. now right.
Qed.

Lemma assign_NoDup key f (m : RegisteredCommands) :
  List.NoDup (map fst m) -> List.NoDup (map fst (assign key f m)).
Proof.
  intros Hm. destruct (in_dec String.string_dec key (map fst m)) as [Hin | Hnin].
  - now rewrite assign_keys_present.
  - rewrite assign_keys_absent by exact Hnin.
    apply (Permutation_NoDup (Permutation_cons_append (map fst m) key)).
    now constructor.
Qed.

Lemma registerCommand_live (w : World) (this : addr) (c : Console) (s : string)
    (f : CommandFunction) :
  consoles w !! this = Some c ->
  registerCommand this s f w =
    Done tt (set_consoles
               (<[this := mkConsole (greeting_ c) (assign s f (commands_ c)) (history_ c)]>
                  (consoles w)) w).
Proof.
  intros Hc. unfold registerCommand, bind, deref, store, modify. now rewrite Hc.
Qed.

(** X15.  [registerCommand] on a live console inserts or overwrites: afterwards
    the name is found with the function just given, every other name is
    found as before, and the greeting and the history snapshot of the
    console, like everything outside it, are untouched. *)
Theorem registerCommand_lookup (w : World) (this : addr) (c : Console)
    (s : string) (f : CommandFunction) :
  consoles w !! this = Some c ->
  exists c',
    registerCommand this s f w = Done tt (set_consoles (<[this := c']> (consoles w)) w)
    /\ find s (commands_ c') = Some f
    /\ (forall k, k <> s -> find k (commands_ c') = find k (commands_ c))
    /\ greeting_ c' = greeting_ c
    /\ history_ c' = history_ c.
Proof.
  intros Hc. eexists. split; [exact (registerCommand_live w this c s f Hc) |].
  cbn [commands_ greeting_ history_].
  split; [apply find_assign_eq |]. split; [| split; reflexivity].
  intros k Hk. now apply find_assign_ne.
Qed.

(** X16.  With unique keys in the registry, the commands listed after
    [registerCommand] are again without duplicates: registering a name that
    is already there leaves the list and its order as they were, a new name
    adds exactly that name. *)
Theorem registerCommand_names (w : World) (this : addr) (c : Console)
    (s : string) (f : CommandFunction) :
  consoles w !! this = Some c ->
  List.NoDup (map fst (commands_ c)) ->
  exists w' names',
    registerCommand this s f w = Done tt w'
    /\ getRegisteredCommands this w' = Done names' w'
    /\ List.NoDup names'
    /\ (In s (map fst (commands_ c)) -> names' = map fst (commands_ c))
    /\ (~ In s (map fst (commands_ c)) -> Permutation names' (s :: map fst (commands_ c))).
Proof.
  intros Hc Hnd. eexists _, _.
  split; [exact (registerCommand_live w this c s f Hc) |]. split.
  { unfold getRegisteredCommands, bind, deref, ret. cbn [consoles set_consoles].
    rewrite lookup_insert_eq. reflexivity. }
  cbn [commands_]. split; [now apply assign_NoDup |]. split.
  - apply assign_keys_present.
  - intros Hnin. rewrite assign_keys_absent by exact Hnin.
    symmetry. apply Permutation_cons_append.
Qed.

Lemma NoDup_ctor_keys (this : addr) :
  List.NoDup (map fst (assign "run" (RunLambda this)
                    (assign "help" (HelpLambda this)
                       [("quit", EmptyFunction); ("exit", EmptyFunction)]))).
Proof.
  cbn. repeat constructor; cbn; intuition discriminate.
Qed.

Lemma reserveConsole_commands (w w' : World) (C : addr) :
  reserveConsole C w = Done tt w' ->
  forall X x', consoles w' !! X = Some x' ->
    exists x, consoles w !! X = Some x /\ commands_ x' = commands_ x.
Proof.
  intros Hres X x' HX.
  destruct (currentConsole_ w) as [A |] eqn:Hcur.
  - destruct (decide (A = C)) as [-> | Hne].
    + rewrite reserveConsole_active in Hres by exact Hcur.
      injection Hres as <-. now exists x'.
    + destruct (consoles w !! A) as [a |] eqn:HA.
      * destruct (consoles w !! C) as [c |] eqn:HC.
        -- rewrite (reserveConsole_switch w C A c a HC Hcur Hne HA) in Hres.
           injection Hres as <-. cbn [consoles set_consoles set_rl_history
                                       set_currentConsole_] in HX.
           destruct (decide (X = A)) as [-> | HXA].
           ++ rewrite lookup_insert_eq in HX. injection HX as <-. now exists a.
           ++ rewrite lookup_insert_ne in HX by congruence. now exists x'.
        -- exfalso. revert Hres.
           unfold reserveConsole, saveState, store, deref, bind, gets, modify.
           rewrite Hcur. rewrite bool_decide_eq_false_2 by congruence.
           rewrite HA. cbn [consoles set_consoles].
           rewrite lookup_insert_ne by exact Hne. rewrite HC. discriminate.
      * rewrite (reserveConsole_dangling w C A Hcur Hne HA) in Hres. discriminate.
  - destruct (consoles w !! C) as [c |] eqn:HC.
    + rewrite (reserveConsole_idle w C c HC Hcur) in Hres.
      injection Hres as <-. now exists x'.
    + exfalso. revert Hres. unfold reserveConsole, deref, bind, gets, ret.
      rewrite Hcur. rewrite bool_decide_eq_false_2 by congruence.
      rewrite HC. discriminate.
Qed.

(** X17.  No registry ever holds a key twice: none does before the first
    console exists, and the constructor, [registerCommand], [reserveConsole],
    [executeCommand] and [readLine] all keep it so. *)
Theorem keys_unique_invariant (w : World) :
  keys_unique w ->
  (forall this greeting w', Console_ctor this greeting w = Done tt w' -> keys_unique w')
  /\ (forall this s f w', registerCommand this s f w = Done tt w' -> keys_unique w')
  /\ (forall this w', reserveConsole this w = Done tt w' -> keys_unique w')
  /\ (forall fuel this line r w',
        executeCommand fuel this line w = Done r w' -> keys_unique w')
  /\ (forall fuel this input r w',
        readLine fuel this input w = Done r w' -> keys_unique w')
  /\ (forall u, keys_unique (initial_world u)).
Proof.
  intros Hw.
  assert (Hreserve : forall this w', reserveConsole this w = Done tt w' -> keys_unique w').
  { intros this w' Hres X x' HX.
    destruct (reserveConsole_commands w w' this Hres X x' HX) as (x & Hx & ->).
    exact (Hw X x Hx). }
  assert (Hexec : forall w0, keys_unique w0 -> forall fuel this line r w',
             executeCommand fuel this line w0 = Done r w' -> keys_unique w').
  { intros w0 Hw0 fuel this line r w' Hrun.
    pose proof (untouched_executeCommand fuel this line w0) as Hu.
    rewrite Hrun in Hu. destruct Hu as (Hcons & _).
    intros X x HX. rewrite Hcons in HX. exact (Hw0 X x HX). }
  split; [| split; [| split; [exact Hreserve | split; [exact (Hexec w Hw) | split]]]].
  - intros this greeting w' [= <-] X x. cbn [consoles set_consoles].
    destruct (decide (X = this)) as [-> | Hne].
    + rewrite lookup_insert_eq. intros [= <-]. apply NoDup_ctor_keys.
    + rewrite lookup_insert_ne by congruence. apply Hw.
  - intros this s f w'. destruct (consoles w !! this) as [c |] eqn:Hc.
    + rewrite (registerCommand_live w this c s f Hc). intros [= <-] X x.
      cbn [consoles set_consoles].
      destruct (decide (X = this)) as [-> | Hne].
      * rewrite lookup_insert_eq. intros [= <-]. cbn [commands_].
        apply assign_NoDup. exact (Hw this c Hc).
      * rewrite lookup_insert_ne by congruence. apply Hw.
    + unfold registerCommand, bind, deref. rewrite Hc. discriminate.
  - intros fuel this input r w'. unfold readLine. unfold bind at 1.
    destruct (reserveConsole this w) as [[] w1 | | |] eqn:Hres; try discriminate.
    pose proof (Hreserve this w1 Hres) as Hw1.
    destruct input as [buffer |].
    + unfold bind at 1.
      destruct (string_empty buffer); cbn [negb];
        [unfold ret at 1 | unfold add_history at 1, modify at 1];
        apply Hexec; exact Hw1.
    + intros [= _ <-]. exact Hw1.
  - intros u X x HX. cbn in HX. rewrite lookup_empty in HX. discriminate.
Qed.

(** ** More on the completion adapter *)

Lemma string_contains_refl (s : string) : string_contains s s = true.
Proof.
  apply string_contains_iff. exists "", "". now rewrite string_app_nil_r.
Qed.

Lemma string_contains_empty (s : string) : string_contains "" s = true.
Proof.
  apply string_contains_iff. now exists "", s.
Qed.

(** X18.  What a completion request does while a console is active.  Not at
    column 0 it returns null and touches nothing.  At column 0, when no
    registered name contains the partial text, it walks the whole registry,
    returns null and leaves the static iterator at the end, nothing else
    changed.  At column 0, when some registered name contains the partial
    text (and the names hold no NUL), the copy of the first such name writes
    its terminator one byte past [new char[command.size()]]: undefined
    behaviour; the empty partial text and a partial text that is itself a
    registered name are such cases. *)
Theorem completion_outcomes (w : World) (C : addr) (c : Console) (text : string)
    (fuel : nat) :
  currentConsole_ w = Some C ->
  consoles w !! C = Some c ->
  (forall start, start <> 0 -> getCommandCompletions fuel text start w = Done None w)
  /\ (Forall (fun name => string_contains text name = false) (map fst (commands_ c)) ->
      getCommandCompletions (S fuel) text 0 w =
        Done None (set_it (Some (mkIterator C (map fst (commands_ c)) [])) w))
  /\ (Forall (fun name => c_str name = name) (map fst (commands_ c)) ->
      Exists (fun name => string_contains text name = true) (map fst (commands_ c)) ->
      getCommandCompletions (S fuel) text 0 w = Undefined)
  /\ (Forall (fun name => c_str name = name) (map fst (commands_ c)) ->
      commands_ c <> [] ->
      getCommandCompletions (S fuel) "" 0 w = Undefined)
  /\ (Forall (fun name => c_str name = name) (map fst (commands_ c)) ->
      forall name, In name (map fst (commands_ c)) ->
      getCommandCompletions (S fuel) name 0 w = Undefined).
Proof.
  intros Hcur HC. split; [| split; [| split; [| split]]].
  - intros start. apply getCommandCompletions_other_column.
  - now apply (getCommandCompletions_no_match fuel text w C c).
  - now apply (getCommandCompletions_overflow fuel text w C c).
  - intros Hnul Hne.
    apply (getCommandCompletions_overflow fuel "" w C c Hcur HC Hnul).
    destruct (commands_ c) as [| [k f] m]; [congruence |].
    constructor. apply string_contains_empty.
  - intros Hnul name Hin.
    apply (getCommandCompletions_overflow fuel name w C c Hcur HC Hnul).
    apply List.Exists_exists. exists name. split; [exact Hin |].
    apply string_contains_refl.
Qed.

(** X19.  Completion leans on [currentConsole_]: a request at column 0 while
    no console is active, or while the active one has been destroyed, is
    undefined behaviour, and so is a call of the generator with a non-zero
    state before any call with state 0. *)
Theorem completion_without_owner (w : World) (text : string) (fuel : nat) :
  (currentConsole_ w = None ->
   getCommandCompletions (S fuel) text 0 w = Undefined)
  /\ (forall p, currentConsole_ w = Some p -> consoles w !! p = None ->
        getCommandCompletions (S fuel) text 0 w = Undefined)
  /\ (forall p c state, currentConsole_ w = Some p -> consoles w !! p = Some c ->
        state <> 0 -> it w = None ->
        commandIterator text state w = Undefined).
Proof.
  split; [| split].
  - intros Hcur. unfold getCommandCompletions. cbn [Z.eqb].
    unfold rl_completion_matches. unfold bind at 1. cbn [collect_matches].
    unfold bind at 1. unfold commandIterator. unfold bind at 1, gets.
    rewrite Hcur. reflexivity.
  - intros p Hcur Hp. unfold getCommandCompletions. cbn [Z.eqb].
    unfold rl_completion_matches. unfold bind at 1. cbn [collect_matches].
    unfold bind at 1. unfold commandIterator. unfold bind at 1, gets.
    rewrite Hcur. unfold bind at 1, deref. rewrite Hp. reflexivity.
  - intros p c state Hcur Hp Hstate Hit.
    unfold commandIterator, bind, gets, deref, ret.
    rewrite Hcur, Hp. apply Z.eqb_neq in Hstate. rewrite Hstate, Hit. reflexivity.
Qed.

(** ** More on the script runner *)

Lemma idle_loop (fuel : nat) (this : addr) (lines : list string) :
  Forall idle_line lines ->
  forall n w, exists evs,
    executeFile_loop (executeCommand (S fuel) this) lines n w =
      Done ReturnCode.Ok (log_all evs w)
    /\ Forall (fun e => ~ is_Invoke e) evs.
Proof.
  induction 1 as [| line lines Hline _ IH]; intros n w.
  - exists []. split; [reflexivity | constructor].
  - destruct (is_comment line) eqn:Hc.
    + rewrite executeFile_loop_comment by exact Hc.
      destruct (IH n (log (Subscript line 0) w)) as (evs & Hrun & Hevs).
      exists (Subscript line 0 :: evs). split; [exact Hrun |].
      constructor; [intros [] | exact Hevs].
    + destruct Hline as [Hcomment | Hspace]; [congruence |].
      assert (Hexec : executeCommand (S fuel) this line
                        (log (Cout (echo n line)) (log (Subscript line 0) w))
                      = Done 0 (log (Cout (echo n line)) (log (Subscript line 0) w))).
      { cbn [executeCommand]. now rewrite (tokenize_all_space line Hspace). }
      rewrite (executeFile_loop_continue _ line lines n w _ Hc Hexec).
      destruct (IH (n + 1) (log (Cout (String NEWLINE ""))
                     (log (Cout (echo n line)) (log (Subscript line 0) w))))
        as (evs & Hrun & Hevs).
      exists (Subscript line 0 :: Cout (echo n line) :: Cout (String NEWLINE "") :: evs).
      split; [exact Hrun |].
      repeat (constructor; [intros [] |]). exact Hevs.
Qed.

(** X20.  A script that holds nothing but comments and lines of white space
    (empty lines among them) returns [Ok]; all it leaves behind are the
    reads of the first characters and the echoes of the blank lines: no
    registered function is called and nothing else in the world changes. *)
Theorem idle_script_returns_Ok (fuel : nat) (this : addr) (filename content : string)
    (w : World) :
  files w filename = Some content ->
  Forall idle_line (getlines content) ->
  exists evs,
    executeFile (S fuel) this filename w = Done ReturnCode.Ok (log_all evs w)
    /\ Forall (fun e => ~ is_Invoke e) evs.
Proof.
  intros Hf Hidle. unfold executeFile.
  rewrite (executeFile_with_open _ _ content) by exact Hf.
  now apply idle_loop.
Qed.

(** X21.  [executeFile] catches nothing: when a line of the script leaves
    [executeCommand] by [std::bad_function_call], [executeFile] leaves by
    it too, in the world of the throw, and no later line is executed. *)
Theorem executeFile_propagates_exception (fuel : nat) (this : addr)
    (filename content : string) (pre post : list string) (line : string)
    (n : Z) (w w1 w2 : World) :
  files w filename = Some content ->
  getlines content = pre ++ line :: post ->
  lines_ok (executeCommand fuel this) pre 0 w n w1 ->
  is_comment line = false ->
  executeCommand fuel this line
    (log (Cout (echo n line)) (log (Subscript line 0) w1)) = Thrown w2 ->
  executeFile fuel this filename w = Thrown w2.
Proof.
  intros Hf Hlines Hok Hc Hexec. unfold executeFile.
  rewrite (executeFile_with_open _ _ content) by exact Hf.
  rewrite Hlines, (executeFile_loop_prefix _ pre (line :: post) 0 w n w1 Hok).
  rewrite executeFile_loop_exec by exact Hc. unfold bind at 1. now rewrite Hexec.
Qed.

Lemma executeCommand_unknown (fuel : nat) (w : World) (this : addr) (c : Console)
    (command tok : string) (args : list string) :
  consoles w !! this = Some c ->
  tokenize command = tok :: args ->
  tok <> "quit" -> tok <> "exit" ->
  find tok (commands_ c) = None ->
  executeCommand (S fuel) this command w =
    Done ReturnCode.Error
         (log (Cout ("Command '" +:+ tok +:+ "' not found." +:+ String NEWLINE "")) w).
Proof.
  intros Hc Htok Hq He Hfind. cbn [executeCommand].
  rewrite Htok, (quit_exit_test_false tok Hq He).
  unfold bind, deref. rewrite Hc, Hfind. reflexivity.
Qed.

Lemma extract_tokens_head s : forall tok,
  tok <> "" -> exists t' rest, extract_tokens tok s = (tok +:+ t') :: rest.
Proof.
  induction s as [| c s IH]; intros tok Htok; cbn [extract_tokens].
  - exists "", []. destruct tok; [congruence |]. now rewrite string_app_nil_r.
  - destruct (isspace c).
    + exists "", (extract_tokens "" s). destruct tok; [congruence |].
      now rewrite string_app_nil_r.
    + destruct (IH (tok +:+ String c "")) as (t' & rest & Hrun).
      { destruct tok; discriminate. }
      exists (String c t'), rest. rewrite Hrun, string_app_assoc. reflexivity.
Qed.

(** X22.  Only a '#' in the very first column makes a comment: a script line
    with white space before its '#' is echoed and executed as a command
    whose name begins with '#', so with no such command registered the
    script stops right there with the not-found diagnostic and [Error]. *)
Theorem indented_hash_is_executed (fuel : nat) (this : addr) (c : Console)
    (pad s : string) (rest : list string) (n : Z) (w : World) :
  consoles w !! this = Some c ->
  all_space pad ->
  pad <> "" ->
  exists tok args,
    tokenize (pad +:+ String HASH s) = String HASH tok :: args
    /\ is_comment (pad +:+ String HASH s) = false
    /\ (find (String HASH tok) (commands_ c) = None ->
        executeFile_loop (executeCommand (S fuel) this)
          ((pad +:+ String HASH s) :: rest) n w =
          Done ReturnCode.Error
            (log (Cout ("Command '" +:+ String HASH tok +:+ "' not found."
                        +:+ String NEWLINE ""))
               (log (Cout (echo n (pad +:+ String HASH s)))
                  (log (Subscript (pad +:+ String HASH s) 0) w)))).
Proof.
  intros Hc Hpad Hne.
  assert (Htok : exists tok args,
             tokenize (pad +:+ String HASH s) = String HASH tok :: args).
  { unfold tokenize. rewrite (extract_tokens_leading pad _ Hpad).
    cbn [extract_tokens]. change (isspace HASH) with false. cbv iota.
    rewrite string_app_nil_l.
    destruct (extract_tokens_head s (String HASH "")) as (t' & args & Hrun);
      [discriminate |].
    exists t', args. exact Hrun. }
  destruct Htok as (tok & args & Htok).
  assert (Hcomment : is_comment (pad +:+ String HASH s) = false).
  { destruct pad as [| p pad]; [congruence |].
    apply all_space_tail in Hpad as [Hp _].
    rewrite string_app_cons. cbn [is_comment].
    destruct (Ascii.eqb_spec p HASH) as [-> | _]; [discriminate | reflexivity]. }
  exists tok, args. split; [exact Htok |]. split; [exact Hcomment |].
  intros Hfind. apply executeFile_loop_stop; [exact Hcomment | | discriminate].
  apply (executeCommand_unknown fuel _ this c _ (String HASH tok) args);
    try assumption; discriminate.
Qed.

(** Whatever holds of the constructor's registry and survives [assign] holds
    of every registry for good. *)
Lemma registry_invariant (P : RegisteredCommands -> Prop) (w : World) :
  (forall this, P (assign "run" (RunLambda this)
                     (assign "help" (HelpLambda this)
                        [("quit", EmptyFunction); ("exit", EmptyFunction)]))) ->
  (forall key f m, P m -> P (assign key f m)) ->
  (forall p c, consoles w !! p = Some c -> P (commands_ c)) ->
  (forall this greeting w' p c,
      Console_ctor this greeting w = Done tt w' ->
      consoles w' !! p = Some c -> P (commands_ c))
  /\ (forall this s f w' p c,
        registerCommand this s f w = Done tt w' ->
        consoles w' !! p = Some c -> P (commands_ c))
  /\ (forall this w' p c,
        reserveConsole this w = Done tt w' ->
        consoles w' !! p = Some c -> P (commands_ c))
  /\ (forall fuel this line r w' p c,
        executeCommand fuel this line w = Done r w' ->
        consoles w' !! p = Some c -> P (commands_ c))
  /\ (forall fuel this input r w' p c,
        readLine fuel this input w = Done r w' ->
        consoles w' !! p = Some c -> P (commands_ c)).
Proof.
  intros Pctor Passign Hw.
  assert (Hreserve : forall this w' p c,
             reserveConsole this w = Done tt w' ->
             consoles w' !! p = Some c -> P (commands_ c)).
  { intros this w' p c' Hres Hp.
    destruct (reserveConsole_commands w w' this Hres p c' Hp) as (x & Hx & ->).
    exact (Hw p x Hx). }
  assert (Hexec : forall w0, (forall p c, consoles w0 !! p = Some c -> P (commands_ c)) ->
             forall fuel this line r w' p c,
               executeCommand fuel this line w0 = Done r w' ->
               consoles w' !! p = Some c -> P (commands_ c)).
  { intros w0 Hw0 fuel this line r w' p c Hrun Hp.
    pose proof (untouched_executeCommand fuel this line w0) as Hu.
    rewrite Hrun in Hu. destruct Hu as (Hcons & _).
    rewrite Hcons in Hp. exact (Hw0 p c Hp). }
  split; [| split; [| split; [exact Hreserve | split; [exact (Hexec w Hw) |]]]].
  - intros this greeting w' p c [= <-]. cbn [consoles set_consoles].
    destruct (decide (p = this)) as [-> | Hne].
    + rewrite lookup_insert_eq. intros [= <-]. apply Pctor.
    + rewrite lookup_insert_ne by congruence. apply Hw.
  - intros this s f w' p c. destruct (consoles w !! this) as [c0 |] eqn:Hc.
    + rewrite (registerCommand_live w this c0 s f Hc). intros [= <-].
      cbn [consoles set_consoles].
      destruct (decide (p = this)) as [-> | Hne].
      * rewrite lookup_insert_eq. intros [= <-]. cbn [commands_].
        apply Passign. exact (Hw this c0 Hc).
      * rewrite lookup_insert_ne by congruence. apply Hw.
    + unfold registerCommand, bind, deref. rewrite Hc. discriminate.
  - intros fuel this input r w' p c. unfold readLine. unfold bind at 1.
    destruct (reserveConsole this w) as [[] w1 | | |] eqn:Hres; try discriminate.
    assert (Hw1 : forall p c, consoles w1 !! p = Some c -> P (commands_ c)).
    { intros p0 c0. exact (Hreserve this w1 p0 c0 Hres). }
    destruct input as [buffer |].
    + unfold bind at 1.
      destruct (string_empty buffer); cbn [negb];
        [unfold ret at 1 | unfold add_history at 1, modify at 1];
        apply Hexec; exact Hw1.
    + intros [= _ <-]. apply Hw1.
Qed.

(** X23.  Nothing ever removes a command: "quit", "exit", "help" and "run"
    are keys of every registry from its construction on, through
    [registerCommand], [reserveConsole], [executeCommand] and [readLine]. *)
Theorem builtins_stay_listed (w : World) :
  builtins_listed w ->
  (forall this greeting w', Console_ctor this greeting w = Done tt w' -> builtins_listed w')
  /\ (forall this s f w', registerCommand this s f w = Done tt w' -> builtins_listed w')
  /\ (forall this w', reserveConsole this w = Done tt w' -> builtins_listed w')
  /\ (forall fuel this line r w',
        executeCommand fuel this line w = Done r w' -> builtins_listed w')
  /\ (forall fuel this input r w',
        readLine fuel this input w = Done r w' -> builtins_listed w').
Proof.
  intros Hw.
  destruct (registry_invariant
              (fun m => forall name, In name ["quit"; "exit"; "help"; "run"] ->
                                     In name (map fst m)) w)
    as (H1 & H2 & H3 & H4 & H5).
  - intros this name Hin. cbn in *. intuition.
  - intros key f m Hm name Hin. apply In_assign. now apply Hm.
  - exact Hw.
  - split; [| split; [| split; [| split]]].
    + intros this greeting w' Hrun p c. exact (H1 this greeting w' p c Hrun).
    + intros this s f w' Hrun p c. exact (H2 this s f w' p c Hrun).
    + intros this w' Hrun p c. exact (H3 this w' p c Hrun).
    + intros fuel this line r w' Hrun p c. exact (H4 fuel this line r w' p c Hrun).
    + intros fuel this input r w' Hrun p c. exact (H5 fuel this input r w' p c Hrun).
Qed.

Lemma no_newline_tail c s : no_newline (String c s) -> c <> NEWLINE /\ no_newline s.
Proof.
  intros H. split; [apply H; now left |]. intros x Hx. apply H. now right.
Qed.

Lemma getlines_line (l rest : string) :
  no_newline l -> getlines (l +:+ String NEWLINE rest) = l :: getlines rest.
Proof.
  induction l as [| c l IH]; intros Hl.
  - rewrite string_app_nil_l. cbn [getlines]. now rewrite Ascii.eqb_refl.
  - apply no_newline_tail in Hl as [Hc Hl].
    rewrite string_app_cons. cbn [getlines].
    apply Ascii.eqb_neq in Hc. rewrite Hc. now rewrite (IH Hl).
Qed.

Lemma getlines_last (l : string) :
  no_newline l -> l <> "" -> getlines l = [l].
Proof.
  induction l as [| c l IH]; intros Hl Hne; [congruence |].
  apply no_newline_tail in Hl as [Hc Hl].
  cbn [getlines]. apply Ascii.eqb_neq in Hc. rewrite Hc.
  destruct l as [| c' l']; [reflexivity |].
  rewrite (IH Hl); [reflexivity | discriminate].
Qed.

(** X24.  Reading a script line by line gives back the lines it was written
    from: a text made of newline-terminated lines is read as exactly those
    lines, and a last line without a terminating newline is read as well. *)
Theorem getlines_terminated_lines (ls : list string) :
  Forall no_newline ls ->
  getlines (terminated_lines ls) = ls
  /\ (forall last, no_newline last -> last <> "" ->
        getlines (terminated_lines ls +:+ last) = ls ++ [last]).
Proof.
  unfold terminated_lines.
  induction 1 as [| l ls Hl _ [IH1 IH2]].
  - split; [reflexivity |]. intros last Hlast Hne.
    cbn [map glue fold_right]. rewrite string_app_nil_l. now apply getlines_last.
  - cbn [map glue fold_right].
    fold (glue (map (fun l => l +:+ String NEWLINE "") ls)).
    split.
    + rewrite string_app_assoc, string_app_cons, string_app_nil_l.
      rewrite (getlines_line l _ Hl). now rewrite IH1.
    + intros last Hlast Hne.
      rewrite !string_app_assoc, string_app_cons, string_app_nil_l.
      rewrite (getlines_line l _ Hl). now rewrite (IH2 last Hlast Hne).
Qed.

End WithUserState.

Arguments Done {U A} a w.
Arguments Thrown {U A} w.
Arguments Undefined {U A}.
Arguments OutOfFuel {U A}.

(** * The statements at work

    The specification's examples, run on the model with an application that
    keeps no state of its own. *)

(** C6.  The handler [all_ones], registered as "bar", returns the [unsigned]
    value 4294967295; [executeCommand] casts it to [int] and so returns -1,
    which is [Quit]: a handler of the application makes the console quit,
    against what Console.hpp says of [CommandFunction]. *)
Theorem all_ones_handler_quits :
  executeCommand 1 1 "bar" (with_handlers tt) =
    Done ReturnCode.Quit (log (Invoke 1 "bar" ["bar"]) (with_handlers tt))
  /\ ~ @handlers_cannot_quit_as_stated unit.
Proof.
  assert (Hrun : executeCommand 1 1 "bar" (with_handlers tt) =
    Done ReturnCode.Quit (log (Invoke 1 "bar" ["bar"]) (with_handlers tt)))
    by (vm_compute; reflexivity).
  split; [exact Hrun |].
  intros H.
  apply (H 1%nat 1%nat (console_at (with_handlers tt) 1) "bar" "bar" [] all_ones
           (with_handlers tt) (log (Invoke 1 "bar" ["bar"]) (with_handlers tt)));
    try discriminate; try exact Hrun; vm_compute; reflexivity.
Qed.

Lemma reserveConsole_spec_witness :
  consoles (B_active tt) !! 1%nat = Some (console_at (B_active tt) 1)
  /\ forall X, is_active (world_after (reserveConsole 1) (B_active tt)) X <-> X = 1%nat.
Proof.
  assert (Hc : consoles (B_active tt) !! 1%nat = Some (console_at (B_active tt) 1))
    by (vm_compute; reflexivity).
  split; [exact Hc |].
  apply (proj2 (proj2 (proj2 (reserveConsole_spec (B_active tt) 1 _ Hc)))).
  vm_compute. reflexivity.
Defined.

Lemma history_isolation_round_trip_witness :
  1%nat <> 2%nat
  /\ consoles (B_active tt) !! 1%nat = Some (console_at (B_active tt) 1)
  /\ consoles (B_active tt) !! 2%nat = Some (console_at (B_active tt) 2)
  /\ is_active (B_active tt) 2
  /\ exists w1 w2 w3,
       add_history "ls" (B_active tt) = Done tt w1
       /\ reserveConsole 1 w1 = Done tt w2
       /\ reserveConsole 2 w2 = Done tt w3
       /\ visible_history w2 = []
       /\ (In "ls" (visible_history w2) <-> In "ls" [])
       /\ visible_history w3 = ["ls"]
       /\ In "ls" (visible_history w3).
Proof.
  assert (Hne : 1%nat <> 2%nat) by lia.
  assert (HA : consoles (B_active tt) !! 1%nat = Some (console_at (B_active tt) 1))
    by (vm_compute; reflexivity).
  assert (HB : consoles (B_active tt) !! 2%nat = Some (console_at (B_active tt) 2))
    by (vm_compute; reflexivity).
  assert (Hact : is_active (B_active tt) 2) by (vm_compute; reflexivity).
  repeat (split; [assumption |]).
  exact (history_isolation_round_trip (B_active tt) 1 2 _ _ "ls" Hne HA HB Hact).
Defined.

(** C2 as stated fails: [A] read the line "help" before [B] took over; when
    [B] adds "help" as well and [A] is reserved again, "help" is in the
    visible history, because it is in [A]'s own. *)
Lemma history_isolation_counterexample : ~ @history_isolation_as_stated unit.
Proof.
  intros H.
  set (w := A_has_help tt).
  set (w1 := world_after (add_history "help") w).
  set (w2 := world_after (reserveConsole 1) w1).
  set (w3 := world_after (reserveConsole 2) w2).
  destruct (H w w1 w2 w3 1%nat 2%nat (console_at w 1) (console_at w 2) "help")
    as [Habsent _]; try (vm_compute; reflexivity).
  - lia.
  - apply Habsent. vm_compute. left. reflexivity.
Qed.

Lemma executeCommand_quit_exit_witness :
  tokenize "quit now" = ["quit"; "now"]
  /\ ("quit" = "quit" \/ "quit" = "exit")
  /\ executeCommand 1 1 "quit now" (with_handlers tt) = Done ReturnCode.Quit (with_handlers tt).
Proof.
  assert (Htok : tokenize "quit now" = ["quit"; "now"]) by reflexivity.
  assert (Hq : "quit" = "quit" \/ "quit" = "exit") by (left; reflexivity).
  split; [exact Htok |]. split; [exact Hq |].
  exact (proj1 (executeCommand_quit_exit 0 (with_handlers tt) 1 "quit now" "quit" ["now"]
                  Htok Hq)).
Defined.

Lemma executeCommand_empty_or_unknown_witness :
  consoles (with_handlers tt) !! 1%nat = Some (console_at (with_handlers tt) 1)
  /\ executeCommand 1 1 "bogus" (with_handlers tt) =
       Done ReturnCode.Error
            (log (Cout ("Command 'bogus' not found." +:+ String NEWLINE ""))
                 (with_handlers tt)).
Proof.
  assert (Hc : consoles (with_handlers tt) !! 1%nat = Some (console_at (with_handlers tt) 1))
    by (vm_compute; reflexivity).
  split; [exact Hc |].
  apply (proj1 (proj2 (proj2 (proj2
           (executeCommand_empty_or_unknown 0 (with_handlers tt) 1 _ Hc))))).
  vm_compute. reflexivity.
Defined.

Lemma executeCommand_dispatch_witness :
  consoles (with_handlers tt) !! 1%nat = Some (console_at (with_handlers tt) 1)
  /\ tokenize "foo bar baz" = ["foo"; "bar"; "baz"]
  /\ "foo" <> "quit" /\ "foo" <> "exit"
  /\ find "foo" (commands_ (console_at (with_handlers tt) 1)) = Some (UserFunction count_args)
  /\ executeCommand 1 1 "foo bar baz" (with_handlers tt) =
       Done 2 (set_user tt (log (Invoke 1 "foo" ["foo"; "bar"; "baz"]) (with_handlers tt))).
Proof.
  assert (Hc : consoles (with_handlers tt) !! 1%nat = Some (console_at (with_handlers tt) 1))
    by (vm_compute; reflexivity).
  assert (Htok : tokenize "foo bar baz" = ["foo"; "bar"; "baz"]) by reflexivity.
  assert (Hq : "foo" <> "quit") by discriminate.
  assert (He : "foo" <> "exit") by discriminate.
  assert (Hfind : find "foo" (commands_ (console_at (with_handlers tt) 1))
                  = Some (UserFunction count_args)) by (vm_compute; reflexivity).
  repeat (split; [assumption |]).
  exact (proj2 (executeCommand_dispatch 0 (with_handlers tt) 1 _ "foo bar baz" "foo"
                  ["bar"; "baz"] _ Hc Htok Hq He Hfind) count_args eq_refl).
Defined.

(** The script "script" holds the lines "# comment", "help", "quit" and
    "help": the comment is skipped, "help" runs, "quit" stops the script and
    the last line is never reached. *)
Lemma executeFile_spec_witness :
  files (two_consoles tt) "script" = Some script_text
  /\ getlines script_text = ["# comment"; "help"; "quit"; "help"]
  /\ executeFile 2 1 "script" (two_consoles tt) =
       Done ReturnCode.Quit
         (log (Cout (echo 1 "quit"))
            (log (Subscript "quit" 0)
               (log (Cout (String NEWLINE ""))
                  (world_after (executeCommand 2 1 "help")
                     (log (Cout (echo 0 "help"))
                        (log (Subscript "help" 0)
                           (log (Subscript "# comment" 0) (two_consoles tt)))))))).
Proof.
  split; [reflexivity |]. split; [reflexivity |].
  set (wa := log (Subscript "# comment" 0) (two_consoles tt)).
  set (wb := world_after (executeCommand 2 1 "help")
               (log (Cout (echo 0 "help")) (log (Subscript "help" 0) wa))).
  set (wc := log (Cout (String NEWLINE "")) wb).
  apply (proj1 (proj2 (executeFile_spec 2 1 "script" (two_consoles tt)))
           script_text ["# comment"; "help"] "quit" ["help"] 1 wc).
  - reflexivity.
  - reflexivity.
  - apply lines_ok_comment; [reflexivity |].
    apply (lines_ok_zero _ "help" [] 0 wa wb); [reflexivity | vm_compute; reflexivity |].
    apply lines_ok_nil.
  - reflexivity.
  - vm_compute. reflexivity.
  - discriminate.
Defined.

(** C7.  Console [B] is active and holds the registry of its constructor.
    The completion request for "h" at column 0 reaches "help", the one name
    that contains "h", and copies it with [strcpy] into
    [new char[command.size()]]: five bytes into four, undefined behaviour
    where the match "help" is expected.  One byte more would have held the
    copy. *)
Theorem completion_of_h_overflows :
  currentConsole_ (B_active tt) = Some 2%nat
  /\ map fst (commands_ (console_at (B_active tt) 2)) = ["quit"; "exit"; "help"; "run"]
  /\ List.filter (string_contains "h") ["quit"; "exit"; "help"; "run"] = ["help"]
  /\ new_strcpy (String.length "help") "help" (B_active tt) = Undefined
  /\ new_strcpy (String.length "help" + 1) "help" (B_active tt) = Done "help" (B_active tt)
  /\ forall fuel, getCommandCompletions (S fuel) "h" 0 (B_active tt) = Undefined.
Proof.
  split; [vm_compute; reflexivity |]. split; [vm_compute; reflexivity |].
  split; [reflexivity |]. split; [reflexivity |]. split; [reflexivity |].
  intros fuel.
  apply (getCommandCompletions_overflow fuel "h" (B_active tt) 2
           (console_at (B_active tt) 2)).
  - vm_compute. reflexivity.
  - vm_compute. reflexivity.
  - repeat constructor.
  - do 2 apply List.Exists_cons_tl. apply List.Exists_cons_hd. reflexivity.
Qed.

Lemma quit_exit_entries_never_called_witness :
  world_ok (two_consoles tt)
  /\ forall fuel p command w'',
       executeCommand fuel p command
         (world_after (Console_ctor 3 "C> ") (two_consoles tt)) <> Thrown w''.
Proof.
  assert (Hok : world_ok (two_consoles tt)).
  { apply (world_ok_Console_ctor _ 2 "B> "), (world_ok_Console_ctor _ 1 "A> ").
    apply world_ok_initial. }
  split; [exact Hok |].
  destruct (quit_exit_entries_never_called (two_consoles tt) 3 "C> " Hok)
    as (w' & c & names & Hctor & _ & _ & _ & _ & Hnever & _).
  unfold world_after. rewrite Hctor. exact Hnever.
Defined.

(** C9 as stated fails: the script "blank" consists of one empty line, and
    running it evaluates [command[0]] on that line. *)
Lemma comment_test_guarded_counterexample : ~ @comment_test_guarded_as_stated unit.
Proof.
  intros H.
  apply (H 1%nat 1%nat "blank" (two_consoles tt)
           (world_after (executeFile 1 1 "blank") (two_consoles tt)) 0).
  - reflexivity.
  - vm_compute. reflexivity.
  - vm_compute. left. reflexivity.
Qed.

(** ** Further examples of the specification *)

Example tokenize_ignores_outer_space :
  tokenize "  foo bar  " = tokenize "foo bar" /\ tokenize "foo bar" = ["foo"; "bar"].
Proof. split; reflexivity. Qed.

Example substring_not_prefix :
  string_contains "el" "help" = true /\ String.prefix "el" "help" = false.
Proof. split; reflexivity. Qed.

Example script_trace :
  trace (world_after (executeFile 2 1 "script") (two_consoles tt)) =
    [Subscript "# comment" 0;
     Subscript "help" 0; Cout (echo 0 "help"); Invoke 1 "help" ["help"];
     Cout ("Available commands are:" +:+ String NEWLINE "");
     Cout (String "009" "quit" +:+ String NEWLINE "");
     Cout (String "009" "exit" +:+ String NEWLINE "");
     Cout (String "009" "help" +:+ String NEWLINE "");
     Cout (String "009" "run" +:+ String NEWLINE "");
     Cout (String NEWLINE "");
     Subscript "quit" 0; Cout (echo 1 "quit")].
Proof. vm_compute. reflexivity. Qed.

Example missing_script :
  executeFile 1 1 "nowhere" (two_consoles tt) =
    Done ReturnCode.Error
         (log (Cout ("Could not find the specified file to execute." +:+ String NEWLINE ""))
              (two_consoles tt)).
Proof. vm_compute. reflexivity. Qed.

(** The built-in "run" hands the result of the script through: the [Quit]
    of the script's third line survives the conversion to [unsigned] and
    back. *)
Example run_propagates_Quit :
  exists w', executeCommand 3 1 "run script" (two_consoles tt) = Done ReturnCode.Quit w'.
Proof. eexists. vm_compute. reflexivity. Qed.

(** Names that hold a [NUL] are copied up to the [NUL], which fits the
    buffer; the engine puts the common prefix of the two copies in front. *)
Example completion_of_names_with_NUL :
  exists w', getCommandCompletions 5 "a" 0 (with_nul_names tt) =
               Done (Some ["a"; "ab"; "ac"]) w'.
Proof. eexists. vm_compute. reflexivity. Qed.

(** A console that is destroyed while it is the active owner leaves
    [currentConsole_] dangling; the next hand-over is undefined. *)
Example destroyed_owner_dangles :
  world_after (Console_dtor 2) (B_active tt) = set_consoles (delete 2%nat (consoles (B_active tt))) (B_active tt)
  /\ reserveConsole 1 (world_after (Console_dtor 2) (B_active tt)) = Undefined.
Proof. split; vm_compute; reflexivity. Qed.

(** ** The further properties at work *)

Ltac chars :=
  let c := fresh "c" in
  let H := fresh "H" in
  intros c H; cbn in H;
  repeat (destruct H as [<- | H]; [first [reflexivity | discriminate] |]);
  contradiction.

Lemma executeCommand_ignores_outer_space_witness :
  all_space "  " /\ all_space " "
  /\ executeCommand 1 1 ("  " +:+ "foo bar" +:+ " ") (with_handlers tt) =
       executeCommand 1 1 "foo bar" (with_handlers tt).
Proof.
  assert (H1 : all_space "  ") by chars.
  assert (H2 : all_space " ") by chars.
  split; [exact H1 |]. split; [exact H2 |].
  exact (executeCommand_ignores_outer_space 1 1 "  " " " "foo bar" (with_handlers tt) H1 H2).
Defined.

Lemma tokenize_unwords_witness :
  Forall (fun t => t <> "" /\ no_space t) ["foo"; "bar"]
  /\ tokenize (unwords ["foo"; "bar"]) = ["foo"; "bar"].
Proof.
  assert (H : Forall (fun t => t <> "" /\ no_space t) ["foo"; "bar"]).
  { repeat constructor; try discriminate; chars. }
  split; [exact H |]. exact (tokenize_unwords ["foo"; "bar"] H).
Defined.

Lemma handler_result_passes_witness :
  consoles (with_handlers tt) !! 1%nat = Some (console_at (with_handlers tt) 1)
  /\ tokenize "foo bar baz" = ["foo"; "bar"; "baz"]
  /\ "foo" <> "quit" /\ "foo" <> "exit"
  /\ find "foo" (commands_ (console_at (with_handlers tt) 1)) = Some (UserFunction count_args)
  /\ exists w', executeCommand 1 1 "foo bar baz" (with_handlers tt) = Done 2 w'.
Proof.
  assert (Hc : consoles (with_handlers tt) !! 1%nat = Some (console_at (with_handlers tt) 1))
    by (vm_compute; reflexivity).
  assert (Htok : tokenize "foo bar baz" = ["foo"; "bar"; "baz"]) by reflexivity.
  assert (Hq : "foo" <> "quit") by discriminate.
  assert (He : "foo" <> "exit") by discriminate.
  assert (Hfind : find "foo" (commands_ (console_at (with_handlers tt) 1))
                  = Some (UserFunction count_args)) by (vm_compute; reflexivity).
  repeat (split; [assumption |]).
  destruct (handler_result_passes 0 (with_handlers tt) 1 _ "foo bar baz" "foo"
              ["bar"; "baz"] count_args Hc Htok Hq He Hfind)
    as (code & w' & Hrun & Hsmall & _).
  exists w'. rewrite Hrun. f_equal. apply Hsmall. vm_compute. split; discriminate.
Defined.

Lemma empty_function_throws_witness :
  consoles (two_consoles tt) !! 1%nat = Some (console_at (two_consoles tt) 1)
  /\ tokenize "noop" = ["noop"]
  /\ "noop" <> "quit" /\ "noop" <> "exit"
  /\ exists w1,
       registerCommand 1 "noop" EmptyFunction (two_consoles tt) = Done tt w1
       /\ executeCommand 1 1 "noop" w1 = Thrown (log (Invoke 1 "noop" ["noop"]) w1).
Proof.
  assert (Hc : consoles (two_consoles tt) !! 1%nat = Some (console_at (two_consoles tt) 1))
    by (vm_compute; reflexivity).
  assert (Htok : tokenize "noop" = ["noop"]) by reflexivity.
  assert (Hq : "noop" <> "quit") by discriminate.
  assert (He : "noop" <> "exit") by discriminate.
  repeat (split; [assumption |]).
  exact (empty_function_throws 0 (two_consoles tt) 1 _ "noop" "noop" [] Hc Htok Hq He).
Defined.

Lemma help_lists_commands_witness :
  consoles (two_consoles tt) !! 1%nat = Some (console_at (two_consoles tt) 1)
  /\ tokenize "help me" = ["help"; "me"]
  /\ "help" <> "quit" /\ "help" <> "exit"
  /\ find "help" (commands_ (console_at (two_consoles tt) 1)) = Some (HelpLambda 1)
  /\ executeCommand 1 1 "help me" (two_consoles tt) =
       Done ReturnCode.Ok
         (log_all [Invoke 1 "help" ["help"; "me"];
                   Cout ("Available commands are:" +:+ String NEWLINE "");
                   help_line "quit"; help_line "exit"; help_line "help"; help_line "run"]
            (two_consoles tt)).
Proof.
  assert (Hc : consoles (two_consoles tt) !! 1%nat = Some (console_at (two_consoles tt) 1))
    by (vm_compute; reflexivity).
  assert (Htok : tokenize "help me" = ["help"; "me"]) by reflexivity.
  assert (Hq : "help" <> "quit") by discriminate.
  assert (He : "help" <> "exit") by discriminate.
  assert (Hfind : find "help" (commands_ (console_at (two_consoles tt) 1))
                  = Some (HelpLambda 1)) by (vm_compute; reflexivity).
  repeat (split; [assumption |]).
  exact (help_lists_commands 0 (two_consoles tt) 1 1 _ _ "help me" "help" ["me"]
           Hc Htok Hq He Hfind Hc).
Defined.

Lemma run_without_argument_witness :
  consoles (two_consoles tt) !! 1%nat = Some (console_at (two_consoles tt) 1)
  /\ tokenize "run" = ["run"]
  /\ "run" <> "quit" /\ "run" <> "exit"
  /\ find "run" (commands_ (console_at (two_consoles tt) 1)) = Some (RunLambda 1)
  /\ executeCommand 1 1 "run" (two_consoles tt) =
       Done ReturnCode.Error
         (log (Cout ("Usage: run script_filename" +:+ String NEWLINE ""))
            (log (Invoke 1 "run" ["run"]) (two_consoles tt))).
Proof.
  assert (Hc : consoles (two_consoles tt) !! 1%nat = Some (console_at (two_consoles tt) 1))
    by (vm_compute; reflexivity).
  assert (Htok : tokenize "run" = ["run"]) by reflexivity.
  assert (Hq : "run" <> "quit") by discriminate.
  assert (He : "run" <> "exit") by discriminate.
  assert (Hfind : find "run" (commands_ (console_at (two_consoles tt) 1))
                  = Some (RunLambda 1)) by (vm_compute; reflexivity).
  repeat (split; [assumption |]).
  exact (run_without_argument 0 (two_consoles tt) 1 1 _ "run" "run" Hc Htok Hq He Hfind).
Defined.

Lemma run_returns_script_result_witness :
  consoles (two_consoles tt) !! 1%nat = Some (console_at (two_consoles tt) 1)
  /\ tokenize "run script now" = ["run"; "script"; "now"]
  /\ "run" <> "quit" /\ "run" <> "exit"
  /\ find "run" (commands_ (console_at (two_consoles tt) 1)) = Some (RunLambda 1)
  /\ executeFile 2 1 "script"
       (log (Invoke 1 "run" ["run"; "script"; "now"]) (two_consoles tt)) =
       Done ReturnCode.Quit
         (world_after (executeFile 2 1 "script")
            (log (Invoke 1 "run" ["run"; "script"; "now"]) (two_consoles tt)))
  /\ executeCommand 3 1 "run script now" (two_consoles tt) =
       Done ReturnCode.Quit
         (world_after (executeFile 2 1 "script")
            (log (Invoke 1 "run" ["run"; "script"; "now"]) (two_consoles tt))).
Proof.
  assert (Hc : consoles (two_consoles tt) !! 1%nat = Some (console_at (two_consoles tt) 1))
    by (vm_compute; reflexivity).
  assert (Htok : tokenize "run script now" = ["run"; "script"; "now"]) by reflexivity.
  assert (Hq : "run" <> "quit") by discriminate.
  assert (He : "run" <> "exit") by discriminate.
  assert (Hfind : find "run" (commands_ (console_at (two_consoles tt) 1))
                  = Some (RunLambda 1)) by (vm_compute; reflexivity).
  assert (Hrun : executeFile 2 1 "script"
       (log (Invoke 1 "run" ["run"; "script"; "now"]) (two_consoles tt)) =
       Done ReturnCode.Quit
         (world_after (executeFile 2 1 "script")
            (log (Invoke 1 "run" ["run"; "script"; "now"]) (two_consoles tt))))
    by (vm_compute; reflexivity).
  repeat (split; [assumption |]).
  exact (run_returns_script_result 2 (two_consoles tt) _ 1 1 _ "run script now" "run"
           "script" ["now"] ReturnCode.Quit Hc Htok Hq He Hfind Hrun).
Defined.

Lemma reserveConsole_keeps_histories_witness :
  consoles (B_active tt) !! 1%nat = Some (console_at (B_active tt) 1)
  /\ owner_live (B_active tt)
  /\ exists w', reserveConsole 1 (B_active tt) = Done tt w' /\ is_active w' 1.
Proof.
  assert (Hc : consoles (B_active tt) !! 1%nat = Some (console_at (B_active tt) 1))
    by (vm_compute; reflexivity).
  assert (Hlive : owner_live (B_active tt)).
  { intros A HA. vm_compute in HA. injection HA as <-.
    exists (console_at (B_active tt) 2). vm_compute. reflexivity. }
  split; [exact Hc |]. split; [exact Hlive |].
  destruct (reserveConsole_keeps_histories (B_active tt) 1 _ Hc Hlive)
    as (w' & Hres & Hact & _).
  exists w'. split; [exact Hres | exact Hact].
Defined.

Lemma readLine_records_witness :
  consoles (B_active tt) !! 1%nat = Some (console_at (B_active tt) 1)
  /\ owner_live (B_active tt)
  /\ readLine 1 1 (Some "bogus") (B_active tt) =
       Done ReturnCode.Error (world_after (readLine 1 1 (Some "bogus")) (B_active tt))
  /\ line_recorded (B_active tt) 1 (console_at (B_active tt) 1) "bogus"
       (world_after (readLine 1 1 (Some "bogus")) (B_active tt))
  /\ visible_history (world_after (readLine 1 1 (Some "bogus")) (B_active tt)) = ["bogus"].
Proof.
  assert (Hc : consoles (B_active tt) !! 1%nat = Some (console_at (B_active tt) 1))
    by (vm_compute; reflexivity).
  assert (Hlive : owner_live (B_active tt)).
  { intros A HA. vm_compute in HA. injection HA as <-.
    exists (console_at (B_active tt) 2). vm_compute. reflexivity. }
  assert (Hrun : readLine 1 1 (Some "bogus") (B_active tt) =
            Done ReturnCode.Error (world_after (readLine 1 1 (Some "bogus")) (B_active tt)))
    by (vm_compute; reflexivity).
  split; [exact Hc |]. split; [exact Hlive |]. split; [exact Hrun |].
  split; [| vm_compute; reflexivity].
  destruct (proj2 (readLine_records 1 (B_active tt) 1 _ Hc Hlive) "bogus")
    as (w2 & _ & _ & Hkept).
  rewrite Hrun in Hkept. exact Hkept.
Defined.

Lemma fresh_console_sees_empty_history_witness :
  owner_live (A_has_help tt)
  /\ consoles (A_has_help tt) !! 3%nat = None
  /\ exists w1 w2,
       Console_ctor 3 "C> " (A_has_help tt) = Done tt w1
       /\ reserveConsole 3 w1 = Done tt w2
       /\ is_active w2 3
       /\ visible_history w2 = entries (emptyHistory_ (A_has_help tt)).
Proof.
  assert (Hlive : owner_live (A_has_help tt)).
  { intros A HA. vm_compute in HA. injection HA as <-.
    exists (console_at (A_has_help tt) 2). vm_compute. reflexivity. }
  assert (Hfresh : consoles (A_has_help tt) !! 3%nat = None) by (vm_compute; reflexivity).
  split; [exact Hlive |]. split; [exact Hfresh |].
  exact (fresh_console_sees_empty_history (A_has_help tt) 3 "C> " Hlive Hfresh).
Defined.

Lemma destroyed_owner_is_dangling_witness :
  consoles (B_active tt) !! 2%nat = Some (console_at (B_active tt) 2)
  /\ is_active (B_active tt) 2
  /\ 1%nat <> 2%nat
  /\ exists w1,
       Console_dtor 2 (B_active tt) = Done tt w1
       /\ currentConsole_ w1 = Some 2%nat
       /\ consoles w1 !! 2%nat = None
       /\ reserveConsole 1 w1 = Undefined
       /\ (forall fuel input, readLine fuel 1 input w1 = Undefined)
       /\ (forall text state, commandIterator text state w1 = Undefined).
Proof.
  assert (HB : consoles (B_active tt) !! 2%nat = Some (console_at (B_active tt) 2))
    by (vm_compute; reflexivity).
  assert (Hact : is_active (B_active tt) 2) by (vm_compute; reflexivity).
  assert (Hne : 1%nat <> 2%nat) by lia.
  repeat (split; [assumption |]).
  exact (destroyed_owner_is_dangling (B_active tt) 1 2 _ HB Hact Hne).
Defined.

Lemma reused_address_inherits_history_witness :
  consoles (world_after (add_history "secret") (B_active tt)) !! 2%nat =
    Some (console_at (B_active tt) 2)
  /\ is_active (world_after (add_history "secret") (B_active tt)) 2
  /\ exists w1 w2,
       Console_dtor 2 (world_after (add_history "secret") (B_active tt)) = Done tt w1
       /\ Console_ctor 2 "new> " w1 = Done tt w2
       /\ reserveConsole 2 w2 = Done tt w2
       /\ visible_history w2 = ["secret"].
Proof.
  assert (HB : consoles (world_after (add_history "secret") (B_active tt)) !! 2%nat =
               Some (console_at (B_active tt) 2)) by (vm_compute; reflexivity).
  assert (Hact : is_active (world_after (add_history "secret") (B_active tt)) 2)
    by (vm_compute; reflexivity).
  split; [exact HB |]. split; [exact Hact |].
  exact (reused_address_inherits_history _ 2 _ "new> " HB Hact).
Defined.

Lemma registerCommand_lookup_witness :
  consoles (two_consoles tt) !! 1%nat = Some (console_at (two_consoles tt) 1)
  /\ exists c',
       registerCommand 1 "foo" (UserFunction count_args) (two_consoles tt) =
         Done tt (set_consoles (<[1%nat := c']> (consoles (two_consoles tt)))
                    (two_consoles tt))
       /\ find "foo" (commands_ c') = Some (UserFunction count_args)
       /\ (forall k, k <> "foo" ->
             find k (commands_ c') = find k (commands_ (console_at (two_consoles tt) 1)))
       /\ greeting_ c' = greeting_ (console_at (two_consoles tt) 1)
       /\ history_ c' = history_ (console_at (two_consoles tt) 1).
Proof.
  assert (Hc : consoles (two_consoles tt) !! 1%nat = Some (console_at (two_consoles tt) 1))
    by (vm_compute; reflexivity).
  split; [exact Hc |].
  exact (registerCommand_lookup (two_consoles tt) 1 _ "foo" (UserFunction count_args) Hc).
Defined.

Lemma registerCommand_names_witness :
  consoles (two_consoles tt) !! 1%nat = Some (console_at (two_consoles tt) 1)
  /\ List.NoDup (map fst (commands_ (console_at (two_consoles tt) 1)))
  /\ exists w' names',
       registerCommand 1 "help" (UserFunction count_args) (two_consoles tt) = Done tt w'
       /\ getRegisteredCommands 1 w' = Done names' w'
       /\ names' = ["quit"; "exit"; "help"; "run"].
Proof.
  assert (Hc : consoles (two_consoles tt) !! 1%nat = Some (console_at (two_consoles tt) 1))
    by (vm_compute; reflexivity).
  assert (Hnd : List.NoDup (map fst (commands_ (console_at (two_consoles tt) 1))))
    by exact (NoDup_ctor_keys 1).
  split; [exact Hc |]. split; [exact Hnd |].
  destruct (registerCommand_names (two_consoles tt) 1 _ "help" (UserFunction count_args)
              Hc Hnd) as (w' & names' & Hreg & Hnames & _ & Hsame & _).
  exists w', names'. split; [exact Hreg |]. split; [exact Hnames |].
  apply Hsame. vm_compute. right. right. left. reflexivity.
Defined.

Lemma keys_unique_invariant_witness :
  keys_unique (initial_world tt)
  /\ keys_unique (world_after (Console_ctor 1 "A> ") (initial_world tt)).
Proof.
  assert (H0 : keys_unique (initial_world tt)).
  { intros p c H. cbn in H. rewrite lookup_empty in H. discriminate. }
  split; [exact H0 |].
  apply (proj1 (keys_unique_invariant (initial_world tt) H0) 1%nat "A> ").
  reflexivity.
Defined.

Lemma completion_outcomes_witness :
  currentConsole_ (B_active tt) = Some 2%nat
  /\ consoles (B_active tt) !! 2%nat = Some (console_at (B_active tt) 2)
  /\ getCommandCompletions 5 "z" 3 (B_active tt) = Done None (B_active tt)
  /\ getCommandCompletions 5 "z" 0 (B_active tt) =
       Done None
         (set_it (Some (mkIterator 2 ["quit"; "exit"; "help"; "run"] [])) (B_active tt))
  /\ getCommandCompletions 5 "" 0 (B_active tt) = Undefined.
Proof.
  assert (Hcur : currentConsole_ (B_active tt) = Some 2%nat) by (vm_compute; reflexivity).
  assert (HC : consoles (B_active tt) !! 2%nat = Some (console_at (B_active tt) 2))
    by (vm_compute; reflexivity).
  split; [exact Hcur |]. split; [exact HC |].
  pose proof (completion_outcomes (B_active tt) 2 _ "z" 4 Hcur HC) as (Hoff & Hnone & _).
  pose proof (completion_outcomes (B_active tt) 2 _ "" 4 Hcur HC) as (_ & _ & _ & Hall & _).
  split; [| split].
  - apply (Hoff 3). discriminate.
  - apply Hnone. repeat constructor.
  - apply Hall; [repeat constructor | discriminate].
Defined.

Lemma idle_script_returns_Ok_witness :
  files (with_idle_script tt) "idle" = Some idle_text
  /\ Forall idle_line (getlines idle_text)
  /\ exists evs,
       executeFile 1 1 "idle" (with_idle_script tt) =
         Done ReturnCode.Ok (log_all evs (with_idle_script tt))
       /\ Forall (fun e => ~ is_Invoke e) evs.
Proof.
  assert (Hf : files (with_idle_script tt) "idle" = Some idle_text) by reflexivity.
  assert (Hidle : Forall idle_line (getlines idle_text)).
  { change (getlines idle_text) with ["# one"; ""; "   "; "#"].
    constructor; [left; reflexivity |].
    constructor; [right; chars |].
    constructor; [right; chars |].
    constructor; [left; reflexivity | constructor]. }
  split; [exact Hf |]. split; [exact Hidle |].
  exact (idle_script_returns_Ok 0 1 "idle" idle_text (with_idle_script tt) Hf Hidle).
Defined.

Lemma executeFile_propagates_exception_witness :
  files (with_noop tt) "bad" = Some bad_text
  /\ getlines bad_text = ["help"] ++ "noop" :: ["help"]
  /\ exists w2, executeFile 1 1 "bad" (with_noop tt) = Thrown w2.
Proof.
  assert (Hf : files (with_noop tt) "bad" = Some bad_text) by reflexivity.
  assert (Hlines : getlines bad_text = ["help"] ++ "noop" :: ["help"]) by reflexivity.
  split; [exact Hf |]. split; [exact Hlines |].
  set (wa := world_after (executeCommand 1 1 "help")
               (log (Cout (echo 0 "help")) (log (Subscript "help" 0) (with_noop tt)))).
  set (w1 := log (Cout (String NEWLINE "")) wa).
  set (w2 := log (Invoke 1 "noop" ["noop"])
               (log (Cout (echo 1 "noop")) (log (Subscript "noop" 0) w1))).
  exists w2.
  apply (executeFile_propagates_exception 1 1 "bad" bad_text ["help"] ["help"] "noop"
           1 (with_noop tt) w1 w2 Hf Hlines).
  - apply (lines_ok_zero _ "help" [] 0 (with_noop tt) wa);
      [reflexivity | vm_compute; reflexivity | apply lines_ok_nil].
  - reflexivity.
  - vm_compute. reflexivity.
Defined.

Lemma indented_hash_is_executed_witness :
  consoles (two_consoles tt) !! 1%nat = Some (console_at (two_consoles tt) 1)
  /\ all_space "  " /\ "  " <> ""
  /\ exists tok args,
       tokenize ("  " +:+ String HASH " note") = String HASH tok :: args
       /\ is_comment ("  " +:+ String HASH " note") = false.
Proof.
  assert (Hc : consoles (two_consoles tt) !! 1%nat = Some (console_at (two_consoles tt) 1))
    by (vm_compute; reflexivity).
  assert (Hpad : all_space "  ") by chars.
  assert (Hne : "  " <> "") by discriminate.
  repeat (split; [assumption |]).
  destruct (indented_hash_is_executed 0 1 _ "  " " note" [] 0 (two_consoles tt)
              Hc Hpad Hne) as (tok & args & Htok & Hcomment & _).
  exists tok, args. split; [exact Htok | exact Hcomment].
Defined.

Lemma builtins_stay_listed_witness :
  builtins_listed (initial_world tt)
  /\ builtins_listed (world_after (Console_ctor 1 "A> ") (initial_world tt)).
Proof.
  assert (H0 : builtins_listed (initial_world tt)).
  { intros p c H. cbn in H. rewrite lookup_empty in H. discriminate. }
  split; [exact H0 |].
  apply (proj1 (builtins_stay_listed (initial_world tt) H0) 1%nat "A> ").
  reflexivity.
Defined.

Lemma getlines_terminated_lines_witness :
  Forall no_newline ["help"; "quit"]
  /\ getlines (terminated_lines ["help"; "quit"]) = ["help"; "quit"].
Proof.
  assert (H : Forall no_newline ["help"; "quit"]) by (repeat constructor; chars).
  split; [exact H |]. exact (proj1 (getlines_terminated_lines ["help"; "quit"] H)).
Defined.
